(** * toktoken: translation gateway between two chat-completion protocols

    A shallow embedding of the translator
    ([src/transform/anthropic-to-openai.ts]), of the token counter
    ([src/utils/tokens.ts]) and of the request preprocessing steps of
    [src/routes/anthropic.ts], with the properties stated about them;
    then of the backend authentication ([src/utils/auth.ts] and the
    handler), of [sanitizeToolChoice] ([src/utils/images.ts]) and of the
    image agent ([src/agents/image.agent.ts]) with the router that calls
    it.

    Conventions of the embedding.
    - A JavaScript string is a [string]; [s.length] is [String.length s]
      (one character per code unit).
    - An optional field ([f?: T], or a field that may hold [null]) is an
      [option]; [x?.f] is a [match] that sends [None] to [None].
    - Integers are [Z]; request bodies are parsed JSON, so a value of type
      [unknown] is a JSON value ([Js.value]), whose numbers are the safe
      integers.
    - A call that may throw returns an [outcome]. *)

From Stdlib Require Import ZArith String Ascii List Lia.
From Stdlib Require QArith DecimalString.
From stdpp Require Import gmap strings list.
Import ListNotations.

Set Warnings "-register-all".

Local Open Scope string_scope.
Local Open Scope Z_scope.

(** ** JavaScript values and operators *)

Module Js.

(** The numbers of the model are the safe integers, those up to
    [2 ^ 53 - 1] in absolute value: a JavaScript number holds each of them
    exactly and prints it with all its digits. *)
Definition maxSafeInteger : Z := 9007199254740991.

Record safeInteger := {
  int_value : Z;
  int_safe : (Z.abs int_value <=? maxSafeInteger) = true
}.

(** A parsed JSON value. *)
Inductive value : Type :=
| VNull
| VBool (b : bool)
| VNum (n : safeInteger)
| VStr (s : string)
| VArr (items : list value)
| VObj (fields : list (string * value)).

(** [s === t] on strings. *)
Definition str_eq (s t : string) : bool := String.eqb s t.

(** ToBoolean on a string: only the empty string is falsy. *)
Definition truthy_str (s : string) : bool := negb (str_eq s EmptyString).

(** ToBoolean on an optional string ([undefined] and [null] are falsy). *)
Definition truthy_ostr (o : option string) : bool :=
  match o with
  | Some s => truthy_str s
  | None => false
  end.

(** ToBoolean on a JSON value: [null], [false], [0] and the empty string are falsy;
    arrays and objects are truthy, the empty ones too. *)
Definition truthy (v : value) : bool :=
  match v with
  | VNull => false
  | VBool b => b
  | VNum n => negb (int_value n =? 0)
  | VStr s => truthy_str s
  | VArr _ => true
  | VObj _ => true
  end.

Definition truthy_opt (o : option value) : bool :=
  match o with
  | Some v => truthy v
  | None => false
  end.

(** [x || d] on an optional string. *)
Definition str_or (o : option string) (d : string) : string :=
  if truthy_ostr o then default d o else d.

(** [x || d] on an optional number. *)
Definition num_or (o : option Z) (d : Z) : Z :=
  match o with
  | Some n => if n =? 0 then d else n
  | None => d
  end.

(** *** Calls that may throw *)

Inductive outcome (A : Type) : Type :=
| Returns (a : A)
| Throws.

Arguments Returns {A} a.
Arguments Throws {A}.

Definition bind {A B : Type} (c : outcome A) (k : A -> outcome B) : outcome B :=
  match c with
  | Returns a => k a
  | Throws => Throws
  end.

(** *** JSON.stringify *)

Definition dquote : ascii := ascii_of_nat 34.
Definition backslash : ascii := ascii_of_nat 92.

Definition hexDigit (n : nat) : ascii :=
  nth n (list_ascii_of_string "0123456789abcdef") "0"%char.

Definition two (a b : ascii) : string := String a (String b EmptyString).

(** The escape of one character inside a JSON string literal. *)
Definition escapeChar (c : ascii) : string :=
  let n := nat_of_ascii c in
  if Nat.eqb n 34 then two backslash dquote
  else if Nat.eqb n 92 then two backslash backslash
  else if Nat.eqb n 8 then two backslash "b"
  else if Nat.eqb n 9 then two backslash "t"
  else if Nat.eqb n 10 then two backslash "n"
  else if Nat.eqb n 12 then two backslash "f"
  else if Nat.eqb n 13 then two backslash "r"
  else if Nat.ltb n 32 then
    String backslash ("u00" ++ two (hexDigit (Nat.div n 16)) (hexDigit (Nat.modulo n 16)))
  else String c EmptyString.

Fixpoint escape (s : string) : string :=
  match s with
  | EmptyString => EmptyString
  | String c s' => escapeChar c ++ escape s'
  end.

Definition quote (s : string) : string :=
  String dquote (escape s ++ String dquote EmptyString).

Definition decimal (n : Z) : string :=
  DecimalString.NilZero.string_of_int (Z.to_int n).

Fixpoint join (sep : string) (parts : list string) : string :=
  match parts with
  | [] => EmptyString
  | [p] => p
  | p :: ps => p ++ sep ++ join sep ps
  end.

Fixpoint JSON_stringify (v : value) : string :=
  match v with
  | VNull => "null"
  | VBool true => "true"
  | VBool false => "false"
  | VNum n => decimal (int_value n)
  | VStr s => quote s
  | VArr items => "[" ++ join "," (List.map JSON_stringify items) ++ "]"
  | VObj fields =>
      "{" ++ join "," (List.map (fun kv => quote (fst kv) ++ ":" ++ JSON_stringify (snd kv))
                                fields) ++ "}"
  end.

(** [JSON.stringify(undefined)] is [undefined]. *)
Definition JSON_stringify_opt (o : option value) : option string :=
  option_map JSON_stringify o.

End Js.

(** ** The translator: [src/transform/anthropic-to-openai.ts] *)

Module Translator.

(** *** Types of the two protocols, as far as the translator reads them *)

Record ImageSource := {
  media_type : string;
  data : string
}.

(** A content block of the source protocol. The translator looks at
    [type], [text] and [source]; a block of another type ([tool_use],
    [tool_result]) carries further fields, kept in [rest]. *)
Record AnthropicContentBlock := {
  type : string;
  text : option string;
  source : option ImageSource;
  rest : list (string * Js.value)
}.

Inductive AnthropicContent :=
| Str (s : string)
| Blocks (bs : list AnthropicContentBlock).

Record AnthropicMessage := {
  role : string;
  content : AnthropicContent
}.

Record AnthropicRequest := {
  model : string;
  messages : list AnthropicMessage;
  system : option string;
  tools : option (list Js.value);
  max_tokens : Z;
  temperature : option QArith_base.Q;
  stream : option bool
}.

Record ImageUrl := { url : string }.

(** [{ type: string; text?: string; image_url?: { url: string } }] *)
Record OpenAIPart := {
  p_type : string;
  p_text : option string;
  p_image_url : option ImageUrl
}.

Inductive OpenAIContent :=
| OStr (s : string)
| OParts (ps : list OpenAIPart).

Record OpenAIMessage := {
  o_role : string;
  o_content : OpenAIContent
}.

Record OpenAIRequest := {
  o_model : string;
  o_messages : list OpenAIMessage;
  o_max_tokens : Z;
  o_temperature : option QArith_base.Q;
  o_stream : option bool
}.

Record OpenAIReply := {
  r_role : string;
  r_content : option string
}.

Record OpenAIChoice := {
  message : option OpenAIReply;
  finish_reason : option string
}.

Record OpenAIUsage := {
  prompt_tokens : option Z;
  completion_tokens : option Z
}.

Record OpenAIResponse := {
  id : string;
  choices : list OpenAIChoice;
  usage : option OpenAIUsage
}.

Record AnthropicUsage := {
  input_tokens : Z;
  output_tokens : Z
}.

Record AnthropicResponse := {
  a_id : string;
  a_type : string;
  a_role : string;
  a_content : list AnthropicContentBlock;
  a_model : string;
  a_stop_reason : option string;
  a_usage : AnthropicUsage
}.

(** *** convertAnthropicToOpenAI *)

(** The body of the inner loop: what one block pushes on [content]. *)
Definition convertBlock (block : AnthropicContentBlock) : list OpenAIPart :=
  if Js.str_eq (type block) "text" then
    [ {| p_type := "text";
         p_text := Some (Js.str_or (text block) EmptyString);
         p_image_url := None |} ]
  else if Js.str_eq (type block) "image" then
    match source block with
    | Some src =>
        [ {| p_type := "image_url";
             p_text := None;
             p_image_url :=
               Some {| url := "data:" ++ media_type src ++ ";base64," ++ data src |} |} ]
    | None => []
    end
  else [].

(** [for (const block of msg.content) ...], pushing on an accumulator. *)
Fixpoint convertBlocks (acc : list OpenAIPart) (bs : list AnthropicContentBlock)
  : list OpenAIPart :=
  match bs with
  | [] => acc
  | block :: bs' => convertBlocks (acc ++ convertBlock block) bs'
  end.

Definition convertMessage (msg : AnthropicMessage) : OpenAIMessage :=
  match content msg with
  | Str s => {| o_role := role msg; o_content := OStr s |}
  | Blocks bs => {| o_role := role msg; o_content := OParts (convertBlocks [] bs) |}
  end.

(** [for (const msg of request.messages) ...], pushing on [messages]. *)
Fixpoint convertMessages (acc : list OpenAIMessage) (ms : list AnthropicMessage)
  : list OpenAIMessage :=
  match ms with
  | [] => acc
  | msg :: ms' => convertMessages (acc ++ [convertMessage msg]) ms'
  end.

Definition systemMessages (request : AnthropicRequest) : list OpenAIMessage :=
  match system request with
  | Some s =>
      if Js.truthy_str s then [ {| o_role := "system"; o_content := OStr s |} ] else []
  | None => []
  end.

Definition convertAnthropicToOpenAI (request : AnthropicRequest) : OpenAIRequest :=
  {| o_model := model request;
     o_messages := convertMessages (systemMessages request) (messages request);
     o_max_tokens := max_tokens request;
     o_temperature := temperature request;
     o_stream := stream request |}.

(** *** convertOpenAIToAnthropic *)

(** [response.choices[0]]: [undefined] on an empty array. *)
Definition firstChoice (response : OpenAIResponse) : option OpenAIChoice :=
  head (choices response).

(** [choice?.message?.content] *)
Definition choiceText (choice : option OpenAIChoice) : option string :=
  match choice with
  | Some c =>
      match message c with
      | Some m => r_content m
      | None => None
      end
  | None => None
  end.

(** [choice?.finish_reason] *)
Definition choiceFinish (choice : option OpenAIChoice) : option string :=
  match choice with
  | Some c => finish_reason c
  | None => None
  end.

Definition textBlock (s : string) : AnthropicContentBlock :=
  {| type := "text"; text := Some s; source := None; rest := [] |}.

Definition responseContent (choice : option OpenAIChoice) : list AnthropicContentBlock :=
  match choiceText choice with
  | Some s => if Js.truthy_str s then [textBlock s] else []
  | None => []
  end.

(** [choice?.finish_reason === 'stop' ? 'end_turn' : null] *)
Definition stopReason (choice : option OpenAIChoice) : option string :=
  match choiceFinish choice with
  | Some f => if Js.str_eq f "stop" then Some "end_turn" else None
  | None => None
  end.

(** [response.usage?.prompt_tokens], [response.usage?.completion_tokens] *)
Definition usagePrompt (response : OpenAIResponse) : option Z :=
  match usage response with
  | Some u => prompt_tokens u
  | None => None
  end.

Definition usageCompletion (response : OpenAIResponse) : option Z :=
  match usage response with
  | Some u => completion_tokens u
  | None => None
  end.

Definition convertOpenAIToAnthropic (response : OpenAIResponse) (originalModel : string)
  : AnthropicResponse :=
  let choice := firstChoice response in
  {| a_id := id response;
     a_type := "message";
     a_role := "assistant";
     a_content := responseContent choice;
     a_model := originalModel;
     a_stop_reason := stopReason choice;
     a_usage := {| input_tokens := Js.num_or (usagePrompt response) 0;
                   output_tokens := Js.num_or (usageCompletion response) 0 |} |}.

(** *** The finish-reason table, as the specification words it *)

Definition finishReasonTable (finish : option string) : option string :=
  match finish with
  | Some f =>
      if Js.str_eq f "stop" then Some "end_turn"
      else if Js.str_eq f "tool_calls" then Some "tool_use"
      else None
  | None => None
  end.

(** The stop reasons of the source protocol. *)
Definition stopReasons : list (option string) :=
  [Some "end_turn"; Some "max_tokens"; Some "tool_use"; None].

End Translator.

(** ** The token counter: [src/utils/tokens.ts] *)

Module Tokens.
Import Js.

Notation "'let!' x ':=' c 'in' k" := (bind c (fun x => k))
  (at level 10, x name, c at level 100, k at level 200).

Record ContentBlock := {
  type : string;
  text : option string;
  input : option value;
  content : option value
}.

(** [content: string | ContentBlock[]]; a parsed body may hold neither. *)
Inductive MessageContent :=
| MStr (s : string)
| MBlocks (bs : list ContentBlock)
| MOther.

Record Message := { m_content : MessageContent }.

Inductive SystemPrompt :=
| SStr (s : string)
| SBlocks (items : list ContentBlock).

Record Tool := {
  name : option string;
  description : option string;
  input_schema : option value
}.

(** [Math.ceil(n / d)] for integers [n] and [d > 0]. *)
Definition ceilDiv (n d : Z) : Z := - ((- n) / d).

Definition strLength (s : string) : Z := Z.of_nat (String.length s).

Section WithEncoder.

(** [enc.encode] of the tiktoken encoder, which throws on the texts it
    rejects. Tokens are numbers. *)
Variable enc_encode : string -> outcome (list N).

(** [enc.encode(text).length] *)
Definition encodeLength (text : string) : outcome Z :=
  let! tokens := enc_encode text in Returns (Z.of_nat (length tokens)).

(** [enc.encode(arg).length] where [arg] may be [undefined]: the encoder
    reads [arg.length] and throws a TypeError. *)
Definition encodeArg (arg : option string) : outcome Z :=
  match arg with
  | Some s => encodeLength s
  | None => Throws
  end.

Definition countTokens (text : string) : Z :=
  match encodeLength text with
  | Returns n => n
  | Throws => ceilDiv (strLength text) 4
  end.

(** A [for ... of] loop whose body updates [tokenCount] and may throw. *)
Fixpoint forOf {A : Type} (body : Z -> A -> outcome Z) (tokenCount : Z) (l : list A)
  : outcome Z :=
  match l with
  | [] => Returns tokenCount
  | x :: l' => let! t := body tokenCount x in forOf body t l'
  end.

(** [typeof content === 'string' ? content : JSON.stringify(content)] *)
Definition resultText (c : option value) : option string :=
  match c with
  | Some (VStr s) => Some s
  | _ => JSON_stringify_opt c
  end.

Definition countBlock (tokenCount : Z) (block : ContentBlock) : outcome Z :=
  if str_eq (type block) "text" && truthy_ostr (text block) then
    let! n := encodeArg (text block) in Returns (tokenCount + n)
  else if str_eq (type block) "tool_use" && truthy_opt (input block) then
    let! n := encodeArg (JSON_stringify_opt (input block)) in Returns (tokenCount + n)
  else if str_eq (type block) "tool_result" then
    let! n := encodeArg (resultText (content block)) in Returns (tokenCount + n)
  else Returns tokenCount.

Definition countMessage (tokenCount : Z) (message : Message) : outcome Z :=
  match m_content message with
  | MStr s => let! n := encodeLength s in Returns (tokenCount + n)
  | MBlocks bs => forOf countBlock tokenCount bs
  | MOther => Returns tokenCount
  end.

(** [item.type === 'text' && typeof item.text === 'string'] *)
Definition countSystemItem (tokenCount : Z) (item : ContentBlock) : outcome Z :=
  match text item with
  | Some t =>
      if str_eq (type item) "text" then let! n := encodeLength t in Returns (tokenCount + n)
      else Returns tokenCount
  | None => Returns tokenCount
  end.

Definition countSystem (tokenCount : Z) (system : option SystemPrompt) : outcome Z :=
  match system with
  | Some (SStr s) => let! n := encodeLength s in Returns (tokenCount + n)
  | Some (SBlocks items) => forOf countSystemItem tokenCount items
  | None => Returns tokenCount
  end.

(** [if (x) tokenCount += enc.encode(x).length] on an optional string. *)
Definition countIfTruthy (tokenCount : Z) (o : option string) : outcome Z :=
  if truthy_ostr o then let! n := encodeArg o in Returns (tokenCount + n)
  else Returns tokenCount.

Definition countTool (tokenCount : Z) (tool : Tool) : outcome Z :=
  let! t1 := countIfTruthy tokenCount (name tool) in
  let! t2 := countIfTruthy t1 (description tool) in
  if truthy_opt (input_schema tool) then
    let! n := encodeArg (JSON_stringify_opt (input_schema tool)) in Returns (t2 + n)
  else Returns t2.

Definition countTools (tokenCount : Z) (tools : option (list Tool)) : outcome Z :=
  match tools with
  | Some ts => forOf countTool tokenCount ts
  | None => Returns tokenCount
  end.

Definition calculateTokenCount (messages : list Message) (system : option SystemPrompt)
  (tools : option (list Tool)) : outcome Z :=
  let! t1 := forOf countMessage 0 messages in
  let! t2 := countSystem t1 system in
  countTools t2 tools.

(** [estimateRequestTokens], the legacy estimate. *)
Definition estimateRequestTokens (messages : value) : Z :=
  countTokens (JSON_stringify messages).

End WithEncoder.

End Tokens.

(** ** Request preprocessing: [src/routes/anthropic.ts] *)

Module Routes.
Import Js.

(** A content block is an object; the preprocessing reads two of its
    fields and spreads the others. *)
Abbreviation Block := (gmap string value).

(** [msg.content]: a string, an array of blocks, or neither. *)
Inductive Content :=
| CStr (s : string)
| CBlocks (bs : list Block)
| COther.

Record Message := {
  role : string;
  content : Content;
  m_fields : gmap string value
}.

(** The request: its messages and its other fields ([model], [system],
    [tools], [max_tokens], [stream], ...). *)
Record AnthropicRequest := {
  messages : list Message;
  r_fields : gmap string value
}.

(** The callback of the inner [map]. *)
Definition normalizeBlock (block : Block) : Block :=
  match block !! "type" with
  | Some (VStr t) =>
      if str_eq t "tool_result" then
        match block !! "tool_use_id" with
        | Some toolUseId => if truthy toolUseId then <["id" := toolUseId]> block else block
        | None => block
        end
      else block
  | _ => block
  end.

(** The callback of the outer [map]. *)
Definition normalizeMessage (msg : Message) : Message :=
  match content msg with
  | CStr _ => msg
  | COther => msg
  | CBlocks bs =>
      {| role := role msg;
         content := CBlocks (List.map normalizeBlock bs);
         m_fields := m_fields msg |}
  end.

Definition normalizeToolIds (req : AnthropicRequest) : AnthropicRequest :=
  {| messages := List.map normalizeMessage (messages req);
     r_fields := r_fields req |}.

(** [a[i]] for an integer [i]: [undefined] outside the array. *)
Definition at_index {A : Type} (a : list A) (i : Z) : option A :=
  if i <? 0 then None else nth_error a (Z.to_nat i).

Definition continueMessage : Message :=
  {| role := "user"; content := CStr "Continue."; m_fields := ∅ |}.

Definition fixTrailingAssistant (req : AnthropicRequest) : AnthropicRequest :=
  let lastMsg := at_index (messages req) (Z.of_nat (length (messages req)) - 1) in
  match lastMsg with
  | Some m =>
      if str_eq (role m) "assistant" then
        {| messages := messages req ++ [continueMessage];
           r_fields := r_fields req |}
      else req
  | None => req
  end.

(** The tool-use id a [tool_result] block carries, if it does. *)
Definition carriedToolUseId (block : Block) : option value :=
  match block !! "type", block !! "tool_use_id" with
  | Some (VStr t), Some v => if str_eq t "tool_result" && truthy v then Some v else None
  | _, _ => None
  end.

(** The role of the last message, if there is one. *)
Definition lastRole (req : AnthropicRequest) : option string :=
  option_map role (last (messages req)).

End Routes.

(** ** The tool-call ID normaliser *)

Module ToolIds.

(** Modelled from the spec: the 32-bit FNV-1a hash the forward mapping is
    built on (the normaliser, [utils/convert.ts], is not among the
    sources). Offset basis and prime are the standard ones; the hash runs
    over the characters of the identifier. *)
Definition fnvOffsetBasis : Z := 2166136261.
Definition fnvPrime : Z := 16777619.

Definition fnvStep (h : Z) (c : ascii) : Z :=
  (Z.lxor h (Z.of_nat (nat_of_ascii c)) * fnvPrime) mod 2 ^ 32.

Fixpoint fnvFold (h : Z) (s : string) : Z :=
  match s with
  | EmptyString => h
  | String c s' => fnvFold (fnvStep h c) s'
  end.

Definition fnv1a_32 (s : string) : Z := fnvFold fnvOffsetBasis s.

(** Modelled from the spec: base-36 numerals, digits [0-9a-z], most
    significant first, no leading zero. *)
Definition base36Digit (d : Z) : ascii :=
  nth (Z.to_nat d) (list_ascii_of_string "0123456789abcdefghijklmnopqrstuvwxyz") "0"%char.

Fixpoint base36From (fuel : nat) (n : Z) (acc : string) : string :=
  match fuel with
  | O => acc
  | S fuel' =>
      let acc' := String (base36Digit (n mod 36)) acc in
      if n / 36 =? 0 then acc' else base36From fuel' (n / 36) acc'
  end.

(** Seven digits are enough below [2 ^ 32]. *)
Definition base36 (n : Z) : string := base36From 7 n EmptyString.

Fixpoint replicate (n : nat) (c : ascii) : string :=
  match n with
  | O => EmptyString
  | S n' => String c (replicate n' c)
  end.

Definition padStart (width : nat) (pad : ascii) (s : string) : string :=
  replicate (width - String.length s) pad ++ s.

Definition truncate (width : nat) (s : string) : string := substring 0 width s.

Definition idLength : nat := 9.

(** Modelled from the spec: the per-request mapping between original and
    short identifiers. *)
Record ToolIdMapping := {
  forward : gmap string string;
  reverse : gmap string string
}.

Definition emptyMapping : ToolIdMapping := {| forward := ∅; reverse := ∅ |}.

Section WithPad.

(** The spec fixes the width of a short identifier, not the padding
    character. *)
Variable pad : ascii.

(** Modelled from the spec: "truncated/padded to exactly 9 characters". *)
Definition fit (s : string) : string := truncate idLength (padStart idLength pad s).

(** Modelled from the spec: [shortId = base36(fnv1a_32(originalId))],
    truncated/padded to exactly 9 characters. *)
Definition shortId (originalId : string) : string := fit (base36 (fnv1a_32 originalId)).

(** Modelled from the spec: shortening an identifier records the pair in
    the mapping the first time the identifier is seen. *)
Definition normalize (m : ToolIdMapping) (originalId : string) : string * ToolIdMapping :=
  let short := shortId originalId in
  match forward m !! originalId with
  | Some _ => (short, m)
  | None =>
      (short, {| forward := <[originalId := short]> (forward m);
                 reverse := <[short := originalId]> (reverse m) |})
  end.

(** Modelled from the spec: on the return path an identifier without a
    reverse entry passes through unchanged. *)
Definition restore (m : ToolIdMapping) (short : string) : string :=
  default short (reverse m !! short).

End WithPad.

(** The value of a base-36 numeral, to read [base36] back. *)
Definition digitValue (c : ascii) : Z :=
  let n := Z.of_nat (nat_of_ascii c) in
  if (48 <=? n) && (n <=? 57) then n - 48 else n - 87.

Fixpoint numeralValue (acc : Z) (s : string) : Z :=
  match s with
  | EmptyString => acc
  | String c s' => numeralValue (acc * 36 + digitValue c) s'
  end.

End ToolIds.

(** ** Backend authentication: [src/utils/auth.ts] and the handler of
    [src/routes/anthropic.ts] *)

Module Auth.
Import Js.

(** [s.includes(sub)] *)
Fixpoint includes (sub s : string) : bool :=
  String.prefix sub s
  || match s with
     | EmptyString => false
     | String _ s' => includes sub s'
     end.

(** [s.startsWith(p)] *)
Definition startsWith (p s : string) : bool := String.prefix p s.

Record BackendConfig := {
  url : string;
  apiKey : option string;
  b_model : string;
  b_name : string
}.

(** [a || b] on optional strings. *)
Definition ostr_or (a b : option string) : option string :=
  if truthy_ostr a then a else b.

(** [utils/auth.ts] *)
Definition isInternalService (url : string) : bool := includes ".cluster.local" url.

Definition getBackendAuth (backend : BackendConfig) (clientAuth : option string)
  : option string :=
  if isInternalService (url backend) then apiKey backend
  else ostr_or (apiKey backend) clientAuth.

(** The handler of [routes/anthropic.ts]. *)
Definition isInternalBackend (url : string) : bool :=
  includes ".cluster.local" url || startsWith "http://" url.

(** [${x}] in a template literal, for an optional string. *)
Definition interpolate (o : option string) : string := default "undefined" o.

Definition getAuthHeader (backend : BackendConfig) (clientAuthHeader : option string)
  : outcome string :=
  if isInternalBackend (url backend) then Returns ("Bearer " ++ interpolate (apiKey backend))
  else
    match clientAuthHeader with
    | Some h => if truthy_str h then Returns h else Throws
    | None => Throws
    end.

End Auth.

(** ** [src/utils/images.ts] *)

Module Images.
Import Js.

(** [s.startsWith('image/')] *)
Definition isImageMimeType (mimeType : string) : bool := String.prefix "image/" mimeType.

(** The request body, as far as [sanitizeToolChoice] reads it. *)
Record OpenAIRequest := {
  tool_choice : option value;
  tools : option (list value);
  fields : gmap string value
}.

(** [!body.tools || body.tools.length === 0] *)
Definition noTools (body : OpenAIRequest) : bool :=
  match tools body with
  | Some [] => true
  | Some _ => false
  | None => true
  end.

Definition sanitizeToolChoice (body : OpenAIRequest) : OpenAIRequest :=
  if truthy_opt (tool_choice body) && noTools body then
    {| tool_choice := None; tools := tools body; fields := fields body |}
  else body.

End Images.

(** ** The image agent: [src/agents/image.agent.ts] *)

Module ImageAgent.
Import Js Translator.

Definition newline : string := String (ascii_of_nat 10) EmptyString.

(** [block.type === 'image' && 'source' in block] *)
Definition isImageBlock (block : AnthropicContentBlock) : bool :=
  str_eq (type block) "image"
  && match source block with
     | Some _ => true
     | None => false
     end.

(** The body of the loops of [hasImages] and [historyHasImages]: [true]
    when the message makes the function return [true], [false] when the
    loop goes on. *)
Definition userImages (msg : AnthropicMessage) : bool :=
  if negb (str_eq (role msg) "user") then false
  else
    match content msg with
    | Str _ => false
    | Blocks bs => existsb isImageBlock bs
    end.

Fixpoint hasImagesLoop (msgs : list AnthropicMessage) : bool :=
  match msgs with
  | [] => false
  | msg :: rest => if userImages msg then true else hasImagesLoop rest
  end.

Definition hasImages (request : AnthropicRequest) : bool :=
  hasImagesLoop (messages request).

Definition messageCount (request : AnthropicRequest) : Z :=
  Z.of_nat (length (messages request)).

Definition lastMessageHasImages (request : AnthropicRequest) : bool :=
  match Routes.at_index (messages request) (messageCount request - 1) with
  | None => false
  | Some lastMessage =>
      if negb (str_eq (role lastMessage) "user") then false
      else
        match content lastMessage with
        | Str _ => false
        | Blocks bs => existsb isImageBlock bs
        end
  end.

(** [for (let i = 0; i < request.messages.length - 1; i++)]; [msgs] are
    the messages from index [i] on. *)
Fixpoint historyLoop (i len : Z) (msgs : list AnthropicMessage) : bool :=
  match msgs with
  | [] => false
  | msg :: rest =>
      if i <? len - 1 then
        if userImages msg then true else historyLoop (i + 1) len rest
      else false
  end.

Definition historyHasImages (request : AnthropicRequest) : bool :=
  historyLoop 0 (messageCount request) (messages request).

(** [b.text || ''] *)
Definition textOf (b : AnthropicContentBlock) : string := str_or (text b) EmptyString.

(** [allText ? newContent.map(b => b.text || '').join('\n\n') : newContent] *)
Definition finalContent (newContent : list AnthropicContentBlock) : AnthropicContent :=
  if forallb (fun b => str_eq (type b) "text") newContent
  then Str (join (newline ++ newline) (List.map textOf newContent))
  else Blocks newContent.

Definition placeholder (n : Z) : AnthropicContentBlock :=
  textBlock ("[Image " ++ decimal n ++ " - previously analyzed]").

(** The inner [map] of [removeImagesFromHistory], which counts the images
    in [globalImageCount]; it returns the counter with the new blocks. *)
Fixpoint replaceImages (globalImageCount : Z) (bs : list AnthropicContentBlock)
  : Z * list AnthropicContentBlock :=
  match bs with
  | [] => (globalImageCount, [])
  | block :: bs' =>
      if isImageBlock block then
        let n := globalImageCount + 1 in
        let (n', out) := replaceImages n bs' in
        (n', placeholder n :: out)
      else
        let (n', out) := replaceImages globalImageCount bs' in
        (n', block :: out)
  end.

(** The outer [map], with its index; [msgs] are the messages from [index]
    on. *)
Fixpoint removeLoop (index len globalImageCount : Z) (msgs : list AnthropicMessage)
  : list AnthropicMessage :=
  match msgs with
  | [] => []
  | msg :: rest =>
      if index =? len - 1 then msg :: removeLoop (index + 1) len globalImageCount rest
      else if negb (str_eq (role msg) "user") then
        msg :: removeLoop (index + 1) len globalImageCount rest
      else
        match content msg with
        | Str _ => msg :: removeLoop (index + 1) len globalImageCount rest
        | Blocks bs =>
            let (n, newContent) := replaceImages globalImageCount bs in
            {| role := role msg; content := finalContent newContent |}
            :: removeLoop (index + 1) len n rest
        end
  end.

Definition withMessages (request : AnthropicRequest) (newMessages : list AnthropicMessage)
  : AnthropicRequest :=
  {| model := model request;
     messages := newMessages;
     system := system request;
     tools := tools request;
     max_tokens := max_tokens request;
     temperature := temperature request;
     stream := stream request |}.

Definition removeImagesFromHistory (request : AnthropicRequest) : AnthropicRequest :=
  withMessages request (removeLoop 0 (messageCount request) 0 (messages request)).

Section WithVision.

(** The answer of the vision backend to the [n]-th call of [analyzeImage]
    (the fixed messages it gives on a failure included), for the image
    block and the task it is called with. *)
Variable analyzeImage : Z -> AnthropicContentBlock -> string -> string.

Definition analysisBlock (imageCount : Z) (description : string) : AnthropicContentBlock :=
  textBlock ("[Image " ++ decimal imageCount ++ " analysis]:" ++ newline ++ description).

(** [filter(b => b.type === 'text').map(b => b.text || '').join(' ')
    || 'Describe this image'] *)
Definition textContextOf (bs : list AnthropicContentBlock) : string :=
  let joined :=
    join " " (List.map textOf (List.filter (fun b => str_eq (type b) "text") bs)) in
  if truthy_str joined then joined else "Describe this image".

(** The loop over the blocks of the last message, pushing on
    [newContent]. *)
Fixpoint analyzeLoop (imageCount : Z) (textContext : string)
  (newContent bs : list AnthropicContentBlock) : list AnthropicContentBlock :=
  match bs with
  | [] => newContent
  | block :: bs' =>
      if isImageBlock block then
        let n := imageCount + 1 in
        let description := analyzeImage n block textContext in
        analyzeLoop n textContext (newContent ++ [analysisBlock n description]) bs'
      else analyzeLoop imageCount textContext (newContent ++ [block]) bs'
  end.

Definition processImagesInLastMessage (request : AnthropicRequest) : AnthropicRequest :=
  let lastIndex := messageCount request - 1 in
  match Routes.at_index (messages request) lastIndex with
  | None => request
  | Some lastMessage =>
      if negb (str_eq (role lastMessage) "user") then request
      else
        match content lastMessage with
        | Str _ => request
        | Blocks bs =>
            let newContent := analyzeLoop 0 (textContextOf bs) [] bs in
            withMessages request
              (<[Z.to_nat lastIndex :=
                   {| role := role lastMessage; content := finalContent newContent |}]>
                 (messages request))
        end
  end.

(** What [AnthropicRouter.handleAnthropicRequest] does to the request
    before it selects a backend; [visionBackend] tells whether one is
    configured. *)
Definition processedRequest (visionBackend : bool) (request : AnthropicRequest)
  : AnthropicRequest :=
  if lastMessageHasImages request && visionBackend then
    removeImagesFromHistory (processImagesInLastMessage request)
  else if historyHasImages request then removeImagesFromHistory request
  else request.

End WithVision.

End ImageAgent.

(** * Specifications and sample inputs *)

(** ** For the translator *)

Section TranslatorSpec.
Import Translator.

(** The finish reason of the first choice, read off the response. *)
Definition reportedFinish (response : OpenAIResponse) : option string :=
  match choices response with
  | c :: _ => finish_reason c
  | [] => None
  end.

(** The text of the first choice, read off the response. *)
Definition reportedText (response : OpenAIResponse) : option string :=
  match choices response with
  | c :: _ =>
      match message c with
      | Some m => r_content m
      | None => None
      end
  | [] => None
  end.

(** Sample responses: the ones of the test suite, and one that finished
    with tool calls. *)
Definition toolCallsResponse : OpenAIResponse :=
  {| id := "chatcmpl-1";
     choices := [ {| message := Some {| r_role := "assistant"; r_content := None |};
                     finish_reason := Some "tool_calls" |} ];
     usage := None |}.

Definition stopResponse : OpenAIResponse :=
  {| id := "chatcmpl-123";
     choices := [ {| message := Some {| r_role := "assistant"; r_content := Some "Hello!" |};
                     finish_reason := Some "stop" |} ];
     usage := Some {| prompt_tokens := Some 10; completion_tokens := Some 5 |} |}.

Definition lengthResponse : OpenAIResponse :=
  {| id := "chatcmpl-123";
     choices := [ {| message := Some {| r_role := "assistant"; r_content := Some "Partial..." |};
                     finish_reason := Some "length" |} ];
     usage := Some {| prompt_tokens := Some 10; completion_tokens := Some 5 |} |}.

Definition noChoices : OpenAIResponse :=
  {| id := "chatcmpl-123"; choices := [];
     usage := Some {| prompt_tokens := Some 10; completion_tokens := Some 0 |} |}.

Definition nullText : OpenAIResponse :=
  {| id := "chatcmpl-123";
     choices := [ {| message := Some {| r_role := "assistant"; r_content := None |};
                     finish_reason := Some "stop" |} ];
     usage := Some {| prompt_tokens := None; completion_tokens := None |} |}.

Definition noUsage : OpenAIResponse :=
  {| id := "chatcmpl-123";
     choices := [ {| message := Some {| r_role := "assistant"; r_content := Some "Hello!" |};
                     finish_reason := Some "stop" |} ];
     usage := None |}.

(** The parts of a translated message ([[]] for string content). *)
Definition partsOf (m : OpenAIMessage) : list OpenAIPart :=
  match o_content m with
  | OParts ps => ps
  | OStr _ => []
  end.

(** A block shows in the output when some part has its type. *)
Definition appearsIn (b : AnthropicContentBlock) (ps : list OpenAIPart) : Prop :=
  exists p, In p ps /\ p_type p = type b.

(** Sample blocks, messages and requests. *)
Definition toolUseBlock : AnthropicContentBlock :=
  {| type := "tool_use"; text := None; source := None;
     rest := [("id", Js.VStr "toolu_1"); ("name", Js.VStr "get_weather");
              ("input", Js.VObj [("city", Js.VStr "Paris")])] |}.

Definition toolResultBlock : AnthropicContentBlock :=
  {| type := "tool_result"; text := None; source := None;
     rest := [("tool_use_id", Js.VStr "toolu_1"); ("content", Js.VStr "sunny")] |}.

Definition toolMessage : AnthropicMessage :=
  {| role := "assistant"; content := Blocks [toolUseBlock; toolResultBlock] |}.

Definition imageMessage : AnthropicMessage :=
  {| role := "user";
     content := Blocks
       [ {| type := "text"; text := Some "Describe this"; source := None; rest := [] |};
         toolUseBlock;
         {| type := "image"; text := None;
            source := Some {| media_type := "image/png"; data := "abc123" |};
            rest := [] |} ] |}.

(** The translated copy of a message with string content. *)
Definition sameRoleAndText (m : AnthropicMessage) (o : OpenAIMessage) : Prop :=
  o_role o = role m /\ exists s, content m = Str s /\ o_content o = OStr s.

Definition helloRequest : AnthropicRequest :=
  {| model := "claude-3";
     messages := [ {| role := "user"; content := Str "Hello" |};
                   {| role := "assistant"; content := Str "Hi there!" |};
                   {| role := "user"; content := Str "How are you?" |} ];
     system := None; tools := None; max_tokens := 100;
     temperature := None; stream := None |}.

End TranslatorSpec.

(** ** For the token counter *)

(** Two encoders to run the counter on. The first gives one token per
    character and accepts every text; the second refuses, as tiktoken
    does with its default arguments, a text that holds the special token
    [<|endoftext|>]. *)
Definition charEncoder (text : string) : Js.outcome (list N) :=
  Js.Returns (List.map N_of_ascii (list_ascii_of_string text)).

Definition guardedEncoder (text : string) : Js.outcome (list N) :=
  match String.index 0 "<|endoftext|>" text with
  | Some _ => Js.Throws
  | None => charEncoder text
  end.

Definition sumZ (l : list Z) : Z := fold_right Z.add 0 l.

Section TokenSums.
Import Js Tokens.

Variable enc_encode : string -> outcome (list N).

Abbreviation count := (countTokens enc_encode).

(** *** The sum the counter computes *)

Definition blockTokens (b : ContentBlock) : Z :=
  if str_eq (type b) "text" then
    match text b with
    | Some t => if str_eq t EmptyString then 0 else count t
    | None => 0
    end
  else if str_eq (type b) "tool_use" then
    match input b with
    | Some v => if truthy v then count (JSON_stringify v) else 0
    | None => 0
    end
  else if str_eq (type b) "tool_result" then
    match content b with
    | Some (VStr s) => count s
    | Some v => count (JSON_stringify v)
    | None => 0
    end
  else 0.

Definition messageTokens (m : Message) : Z :=
  match m_content m with
  | MStr s => count s
  | MBlocks bs => sumZ (List.map blockTokens bs)
  | MOther => 0
  end.

Definition systemItemTokens (item : ContentBlock) : Z :=
  match text item with
  | Some t => if str_eq (type item) "text" then count t else 0
  | None => 0
  end.

Definition systemTokens (system : option SystemPrompt) : Z :=
  match system with
  | Some (SStr s) => count s
  | Some (SBlocks items) => sumZ (List.map systemItemTokens items)
  | None => 0
  end.

Definition nonEmptyTokens (o : option string) : Z :=
  match o with
  | Some s => if str_eq s EmptyString then 0 else count s
  | None => 0
  end.

Definition toolTokens (t : Tool) : Z :=
  nonEmptyTokens (name t) + nonEmptyTokens (description t)
  + match input_schema t with
    | Some v => if truthy v then count (JSON_stringify v) else 0
    | None => 0
    end.

Definition toolsTokens (tools : option (list Tool)) : Z :=
  match tools with
  | Some ts => sumZ (List.map toolTokens ts)
  | None => 0
  end.

(** *** The sum as the specification words it: every text block, the
    JSON-serialized form of every [tool_use.input] and of every
    [tool_result.content], every system text, and name, description and
    JSON-serialized schema of every tool. *)

Definition serializedTokens (o : option value) : Z :=
  match o with
  | Some v => count (JSON_stringify v)
  | None => 0
  end.

Definition textTokens (o : option string) : Z :=
  match o with
  | Some s => count s
  | None => 0
  end.

Definition specBlockTokens (b : ContentBlock) : Z :=
  if str_eq (type b) "text" then textTokens (text b)
  else if str_eq (type b) "tool_use" then serializedTokens (input b)
  else if str_eq (type b) "tool_result" then serializedTokens (content b)
  else 0.

Definition specMessageTokens (m : Message) : Z :=
  match m_content m with
  | MStr s => count s
  | MBlocks bs => sumZ (List.map specBlockTokens bs)
  | MOther => 0
  end.

Definition specToolTokens (t : Tool) : Z :=
  textTokens (name t) + textTokens (description t) + serializedTokens (input_schema t).

Definition specTokenCount (messages : list Message) (system : option SystemPrompt)
  (tools : option (list Tool)) : Z :=
  sumZ (List.map specMessageTokens messages)
  + systemTokens system
  + match tools with
    | Some ts => sumZ (List.map specToolTokens ts)
    | None => 0
    end.

(** *** The texts the counter hands to the encoder, in order *)

Definition blockTexts (b : ContentBlock) : list string :=
  if str_eq (type b) "text" then
    match text b with
    | Some t => if str_eq t EmptyString then [] else [t]
    | None => []
    end
  else if str_eq (type b) "tool_use" then
    match input b with
    | Some v => if truthy v then [JSON_stringify v] else []
    | None => []
    end
  else if str_eq (type b) "tool_result" then
    match content b with
    | Some (VStr s) => [s]
    | Some v => [JSON_stringify v]
    | None => []
    end
  else [].

Definition messageTexts (m : Message) : list string :=
  match m_content m with
  | MStr s => [s]
  | MBlocks bs => flat_map blockTexts bs
  | MOther => []
  end.

Definition systemItemTexts (item : ContentBlock) : list string :=
  match text item with
  | Some t => if str_eq (type item) "text" then [t] else []
  | None => []
  end.

Definition systemTexts (system : option SystemPrompt) : list string :=
  match system with
  | Some (SStr s) => [s]
  | Some (SBlocks items) => flat_map systemItemTexts items
  | None => []
  end.

Definition nonEmptyText (o : option string) : list string :=
  match o with
  | Some s => if str_eq s EmptyString then [] else [s]
  | None => []
  end.

Definition toolTexts (t : Tool) : list string :=
  nonEmptyText (name t) ++ nonEmptyText (description t)
  ++ match input_schema t with
     | Some v => if truthy v then [JSON_stringify v] else []
     | None => []
     end.

Definition toolsTexts (tools : option (list Tool)) : list string :=
  match tools with
  | Some ts => flat_map toolTexts ts
  | None => []
  end.

Definition encodedTexts (messages : list Message) (system : option SystemPrompt)
  (tools : option (list Tool)) : list string :=
  flat_map messageTexts messages ++ systemTexts system ++ toolsTexts tools.

(** The encoder returns on the text. *)
Definition accepted (text : string) : Prop := enc_encode text <> Throws.

(** Every [tool_result] block of the messages has a [content]. *)
Definition resultsHaveContent (messages : list Message) : Prop :=
  Forall (fun m =>
    match m_content m with
    | MBlocks bs => Forall (fun b => type b = "tool_result" -> content b <> None) bs
    | _ => True
    end) messages.

End TokenSums.

Section TokenSamples.
Import Js Tokens.

(** A request with every kind of counted text. *)
Definition demoMessages : list Message :=
  [ {| m_content := MStr "Hello" |};
    {| m_content := MBlocks
         [ {| type := "text"; text := Some "What is the weather?"; input := None;
              content := None |};
           {| type := "tool_use"; text := None;
              input := Some (VObj [("city", VStr "Paris")]); content := None |};
           {| type := "tool_result"; text := None; input := None;
              content := Some (VStr "sunny") |};
           {| type := "tool_result"; text := None; input := None;
              content :=
                Some (VArr [VStr "sunny";
                            VNum {| int_value := 21; int_safe := eq_refl |}]) |} ] |} ].

Definition demoSystem : option SystemPrompt := Some (SStr "Be brief.").

Definition demoTools : option (list Tool) :=
  Some [ {| name := Some "get_weather"; description := Some "Weather of a city";
            input_schema := Some (VObj [("type", VStr "object")]) |} ].

(** A tool use whose input is [null]. *)
Definition nullInputMessages : list Message :=
  [ {| m_content := MBlocks
         [ {| type := "tool_use"; text := None; input := Some VNull;
              content := None |} ] |} ].

(** A tool result whose content is a string. *)
Definition stringResultMessages : list Message :=
  [ {| m_content := MBlocks
         [ {| type := "tool_result"; text := None; input := None;
              content := Some (VStr "ok") |} ] |} ].

End TokenSamples.

Section MoreTokenSamples.
Import Js Tokens.

(** An encoder that refuses every text. *)
Definition refusingEncoder (text : string) : outcome (list N) := Throws.

(** Messages that hold nothing the counter reads. *)
Definition imageOnlyMessages : list Message :=
  [ {| m_content := MBlocks
         [ {| type := "image"; text := None; input := None; content := None |};
           {| type := "thinking"; text := Some "hm"; input := None; content := None |} ] |};
    {| m_content := MOther |} ].

End MoreTokenSamples.

(** ** For the request preprocessing *)

Section PreprocessingSpec.
Import Js Routes.

(** Sample conversations. *)
Definition userMessage (s : string) : Message :=
  {| role := "user"; content := CStr s; m_fields := ∅ |}.

Definition assistantMessage (s : string) : Message :=
  {| role := "assistant"; content := CStr s; m_fields := ∅ |}.

Definition endsWithAssistant : AnthropicRequest :=
  {| messages := [userMessage "Hello"; assistantMessage "Let me"];
     r_fields := {[ "model" := VStr "m" ]} |}.

Definition endsWithUser : AnthropicRequest :=
  {| messages := [userMessage "Hello"; assistantMessage "Hi there!"; userMessage "Bye"];
     r_fields := {[ "model" := VStr "m" ]} |}.

(** What the step does to one block: the block gets the tool-use id it
    carries as its [id], its other fields staying as they are; a block
    that carries none stays as it is. *)
Definition blockFrame (b b' : Block) : Prop :=
  match carriedToolUseId b with
  | Some v => b' !! "id" = Some v /\ forall k, k <> "id" -> b' !! k = b !! k
  | None => b' = b
  end.

(** What the step does to one message. *)
Definition messageFrame (m m' : Message) : Prop :=
  role m' = role m /\ m_fields m' = m_fields m
  /\ match content m with
     | CBlocks bs => exists bs', content m' = CBlocks bs' /\ Forall2 blockFrame bs bs'
     | _ => m' = m
     end.

(** Sample blocks. *)
Definition resultBlock : Block :=
  {[ "type" := VStr "tool_result"; "tool_use_id" := VStr "toolu_1";
     "content" := VStr "sunny" ]}.

Definition useBlock : Block :=
  {[ "type" := VStr "tool_use"; "id" := VStr "toolu_1"; "name" := VStr "get_weather" ]}.

End PreprocessingSpec.

(** ** For the further properties *)

Section MoreSpec.
Import Js Translator.

(** The blocks the request translator has a part for. *)
Definition translatable (b : AnthropicContentBlock) : bool :=
  str_eq (type b) "text"
  || (str_eq (type b) "image"
      && match source b with
         | Some _ => true
         | None => false
         end).

(** A request with a system prompt and an image. *)
Definition visionRequest : AnthropicRequest :=
  {| model := "claude-3";
     messages := [ imageMessage;
                   {| role := "assistant"; content := Str "I see green" |};
                   {| role := "user"; content := Str "What about now?" |} ];
     system := Some "You are a helpful assistant"; tools := None; max_tokens := 100;
     temperature := None; stream := Some true |}.

(** The image block of the tests. *)
Definition pngBlock (d : string) : AnthropicContentBlock :=
  {| type := "image"; text := None;
     source := Some {| media_type := "image/png"; data := d |}; rest := [] |}.

(** A conversation whose first and last message hold an image. *)
Definition twoImagesRequest : AnthropicRequest :=
  {| model := "test";
     messages := [ {| role := "user";
                      content := Blocks [textBlock "Look at this"; pngBlock "old"] |};
                   {| role := "assistant"; content := Str "I saw a green image" |};
                   {| role := "user";
                      content := Blocks [textBlock "What about this one?"; pngBlock "new"] |} ];
     system := None; tools := None; max_tokens := 100;
     temperature := None; stream := None |}.

(** A message [removeImagesFromHistory] leaves as it is: anything but a
    user message whose blocks hold an image or are all text. *)
Definition settled (m : AnthropicMessage) : bool :=
  if negb (str_eq (role m) "user") then true
  else
    match content m with
    | Str _ => true
    | Blocks bs =>
        negb (existsb ImageAgent.isImageBlock bs)
        && negb (forallb (fun b => str_eq (type b) "text") bs)
    end.

(** What [removeImagesFromHistory] does to one message of the history:
    the role stays, the message is settled afterwards, and a message that
    was settled is not touched. *)
Definition cleaned (m m' : AnthropicMessage) : Prop :=
  role m' = role m /\ settled m' = true /\ (settled m = true -> m' = m).

(** A vision backend that answers the same to every call. *)
Definition fixedAnswer (n : Z) (block : AnthropicContentBlock) (task : string) : string :=
  "A green square".

End MoreSpec.

Section MoreAuthSpec.
Import Js Auth.

Definition clusterBackend : BackendConfig :=
  {| url := "http://vllm.vllm.svc.cluster.local:8000"; apiKey := Some "key";
     b_model := "m"; b_name := "vllm" |}.

Definition externalBackend : BackendConfig :=
  {| url := "https://inference.example.io"; apiKey := None;
     b_model := "m"; b_name := "ext" |}.

End MoreAuthSpec.

Section MoreImagesSpec.
Import Js Images.

(** A body that asks for a tool choice without offering a tool. *)
Definition choiceWithoutTools : OpenAIRequest :=
  {| tool_choice := Some (VStr "auto"); tools := Some [];
     fields := {[ "model" := VStr "m" ]} |}.

End MoreImagesSpec.

(** * Properties *)

(** ** JavaScript operators *)

Lemma str_eq_true s t : Js.str_eq s t = true <-> s = t.
Proof. unfold Js.str_eq. apply String.eqb_eq. Qed.

Lemma str_eq_false s t : Js.str_eq s t = false <-> s <> t.
Proof. unfold Js.str_eq. apply String.eqb_neq. Qed.

Lemma truthy_str_nonempty s : Js.truthy_str s = true <-> s <> EmptyString.
Proof.
  unfold Js.truthy_str. rewrite negb_true_iff. apply str_eq_false.
Qed.

Lemma str_or_empty o : Js.str_or o EmptyString = default EmptyString o.
Proof.
  unfold Js.str_or. destruct o as [s|]; simpl; [|reflexivity].
  destruct (Js.truthy_str s) eqn:E; [reflexivity|].
  unfold Js.truthy_str in E. apply negb_false_iff, str_eq_true in E. congruence.
Qed.

(** ** The response translator *)

Section ResponseTranslator.
Import Translator.

Lemma choiceFinish_reported response :
  choiceFinish (firstChoice response) = reportedFinish response.
Proof. unfold firstChoice, reportedFinish. destruct (choices response); reflexivity. Qed.

Lemma choiceText_reported response :
  choiceText (firstChoice response) = reportedText response.
Proof. unfold firstChoice, reportedText. destruct (choices response); reflexivity. Qed.

Lemma stop_reason_cases response originalModel :
  a_stop_reason (convertOpenAIToAnthropic response originalModel) = Some "end_turn"
  \/ a_stop_reason (convertOpenAIToAnthropic response originalModel) = None.
Proof.
  simpl. unfold stopReason.
  destruct (choiceFinish (firstChoice response)) as [f|]; [|right; reflexivity].
  destruct (Js.str_eq f "stop"); [left|right]; reflexivity.
Qed.

(** C1, as stated, fails: a response that finished with [tool_calls] is
    given the stop reason [null], where the table of the specification
    says [tool_use]. *)
Lemma tool_calls_finish_maps_to_null :
  reportedFinish toolCallsResponse = Some "tool_calls"
  /\ finishReasonTable (reportedFinish toolCallsResponse) = Some "tool_use"
  /\ a_stop_reason (convertOpenAIToAnthropic toolCallsResponse "m") = None
  /\ a_stop_reason (convertOpenAIToAnthropic toolCallsResponse "m")
     <> finishReasonTable (reportedFinish toolCallsResponse).
Proof. repeat split; try reflexivity. discriminate. Qed.

(** C1, amended: the response translator maps the finish reason [stop] to
    [end_turn] and every other finish reason, [tool_calls] and an absent
    one included, to [null]. *)
Theorem finish_reason_mapping (response : OpenAIResponse) (originalModel : string) :
  (reportedFinish response = Some "stop" ->
   a_stop_reason (convertOpenAIToAnthropic response originalModel) = Some "end_turn")
  /\ (reportedFinish response <> Some "stop" ->
      a_stop_reason (convertOpenAIToAnthropic response originalModel) = None).
Proof.
  simpl. unfold stopReason. rewrite choiceFinish_reported.
  destruct (reportedFinish response) as [f|]; split; intros H; try congruence.
  - inversion H; subst. reflexivity.
  - destruct (Js.str_eq f "stop") eqn:E; [|reflexivity].
    apply str_eq_true in E. congruence.
Qed.

Lemma finish_reason_mapping_witness :
  a_stop_reason (convertOpenAIToAnthropic stopResponse "claude-3") = Some "end_turn"
  /\ a_stop_reason (convertOpenAIToAnthropic lengthResponse "claude-3") = None.
Proof.
  split.
  - apply (proj1 (finish_reason_mapping stopResponse "claude-3")). reflexivity.
  - apply (proj2 (finish_reason_mapping lengthResponse "claude-3")). discriminate.
Defined.

(** C4: whatever the backend response and its finish reason, absent or
    not, the translator returns (it is a total function) and the stop
    reason it returns is one of [end_turn], [max_tokens], [tool_use] and
    [null]. *)
Theorem stop_reason_in_vocabulary (response : OpenAIResponse) (originalModel : string) :
  In (a_stop_reason (convertOpenAIToAnthropic response originalModel)) stopReasons.
Proof.
  destruct (stop_reason_cases response originalModel) as [H|H]; rewrite H; simpl; tauto.
Qed.

(** C8: a response without choices gives an empty content list and the
    stop reason [null]; an absent or [null] message text gives an empty
    content list (the field [content] is always there); missing usage
    fields give token counts of 0. *)
Theorem degenerate_responses (response : OpenAIResponse) (originalModel : string) :
  let result := convertOpenAIToAnthropic response originalModel in
  (choices response = [] -> a_content result = [] /\ a_stop_reason result = None)
  /\ (reportedText response = None -> a_content result = [])
  /\ (usage response = None ->
      input_tokens (a_usage result) = 0 /\ output_tokens (a_usage result) = 0)
  /\ (forall u, usage response = Some u -> prompt_tokens u = None ->
      input_tokens (a_usage result) = 0)
  /\ (forall u, usage response = Some u -> completion_tokens u = None ->
      output_tokens (a_usage result) = 0).
Proof.
  simpl. unfold responseContent, stopReason, usagePrompt, usageCompletion.
  rewrite choiceText_reported, choiceFinish_reported.
  repeat split.
  - unfold reportedText. rewrite H. reflexivity.
  - unfold reportedFinish. rewrite H. reflexivity.
  - intros H. rewrite H. reflexivity.
  - rewrite H. reflexivity.
  - rewrite H. reflexivity.
  - intros u Hu Hp. rewrite Hu, Hp. reflexivity.
  - intros u Hu Hc. rewrite Hu, Hc. reflexivity.
Qed.

Lemma degenerate_responses_witness :
  (a_content (convertOpenAIToAnthropic noChoices "claude-3") = []
   /\ a_stop_reason (convertOpenAIToAnthropic noChoices "claude-3") = None)
  /\ a_content (convertOpenAIToAnthropic nullText "claude-3") = []
  /\ (input_tokens (a_usage (convertOpenAIToAnthropic noUsage "claude-3")) = 0
      /\ output_tokens (a_usage (convertOpenAIToAnthropic noUsage "claude-3")) = 0)
  /\ input_tokens (a_usage (convertOpenAIToAnthropic nullText "claude-3")) = 0
  /\ output_tokens (a_usage (convertOpenAIToAnthropic nullText "claude-3")) = 0.
Proof.
  pose proof (degenerate_responses noChoices "claude-3") as (H1 & _).
  pose proof (degenerate_responses nullText "claude-3") as (_ & H2 & _ & H4 & H5).
  pose proof (degenerate_responses noUsage "claude-3") as (_ & _ & H3 & _).
  split; [apply H1; reflexivity|].
  split; [apply H2; reflexivity|].
  split; [apply H3; reflexivity|].
  split; [eapply H4; reflexivity | eapply H5; reflexivity].
Defined.

(** A text that is there and not empty becomes a single text block. *)
Lemma text_becomes_text_block response originalModel s :
  reportedText response = Some s -> s <> EmptyString ->
  a_content (convertOpenAIToAnthropic response originalModel) = [textBlock s].
Proof.
  intros Ht Hs. simpl. unfold responseContent. rewrite choiceText_reported, Ht.
  apply truthy_str_nonempty in Hs. rewrite Hs. reflexivity.
Qed.

(** The example of the tests: the model is the caller's. *)
Example convert_simple_response :
  convertOpenAIToAnthropic stopResponse "claude-3"
  = {| a_id := "chatcmpl-123"; a_type := "message"; a_role := "assistant";
       a_content := [textBlock "Hello!"]; a_model := "claude-3";
       a_stop_reason := Some "end_turn";
       a_usage := {| input_tokens := 10; output_tokens := 5 |} |}.
Proof. reflexivity. Qed.

End ResponseTranslator.

(** ** The request translator *)

Section RequestTranslator.
Import Translator.

(** The loops push at the end of their accumulator. *)
Lemma convertBlocks_flat_map bs : forall acc,
  convertBlocks acc bs = (acc ++ flat_map convertBlock bs)%list.
Proof.
  induction bs as [|b bs IH]; intros acc; simpl.
  - rewrite app_nil_r. reflexivity.
  - rewrite IH, <- app_assoc. reflexivity.
Qed.

Lemma convertMessages_map ms : forall acc,
  convertMessages acc ms = (acc ++ List.map convertMessage ms)%list.
Proof.
  induction ms as [|m ms IH]; intros acc; simpl.
  - rewrite app_nil_r. reflexivity.
  - rewrite IH, <- app_assoc. reflexivity.
Qed.

(** C2, as stated, fails: a [tool_use] and a [tool_result] block are left
    out of the translated message, which here has no part at all. *)
Lemma tool_blocks_are_dropped :
  content toolMessage = Blocks [toolUseBlock; toolResultBlock]
  /\ convertMessage toolMessage = {| o_role := "assistant"; o_content := OParts [] |}
  /\ ~ appearsIn toolUseBlock (partsOf (convertMessage toolMessage))
  /\ ~ appearsIn toolResultBlock (partsOf (convertMessage toolMessage)).
Proof.
  repeat split; intros (p & Hin & _); exact Hin.
Qed.

(** C2, amended: a message whose content is a block array is translated
    block by block and in order; a text block gives a text part with its
    text (the empty string when it has none), an image block with a source
    gives an image reference whose URL is the data URI
    [data:<mediaType>;base64,<data>], and every other block (a [tool_use],
    a [tool_result], an image without source) gives nothing. *)
Theorem blocks_translated_in_order (msg : AnthropicMessage) (bs : list AnthropicContentBlock) :
  content msg = Blocks bs ->
  o_role (convertMessage msg) = role msg
  /\ o_content (convertMessage msg) = OParts (flat_map convertBlock bs)
  /\ Forall (fun b =>
       (type b = "text" ->
        convertBlock b =
          [ {| p_type := "text"; p_text := Some (default EmptyString (text b));
               p_image_url := None |} ])
       /\ (forall src, type b = "image" -> source b = Some src ->
           convertBlock b =
             [ {| p_type := "image_url"; p_text := None;
                  p_image_url :=
                    Some {| url := "data:" ++ media_type src ++ ";base64," ++ data src |} |} ])
       /\ (type b <> "text" -> type b <> "image" \/ source b = None ->
           convertBlock b = [])) bs.
Proof.
  intros Hc. unfold convertMessage. rewrite Hc. simpl.
  split; [reflexivity|]. split.
  - rewrite convertBlocks_flat_map. reflexivity.
  - apply Forall_forall. intros b _. unfold convertBlock. repeat split.
    + intros Ht. rewrite Ht. simpl. rewrite str_or_empty. reflexivity.
    + intros src Ht Hs. rewrite Ht, Hs. reflexivity.
    + intros Hnt Hother.
      destruct (Js.str_eq (type b) "text") eqn:E1.
      { apply str_eq_true in E1. contradiction. }
      destruct (Js.str_eq (type b) "image") eqn:E2; [|reflexivity].
      apply str_eq_true in E2. destruct Hother as [Hni|Hns]; [contradiction|].
      rewrite Hns. reflexivity.
Qed.

Lemma blocks_translated_in_order_witness :
  o_content (convertMessage imageMessage)
  = OParts [ {| p_type := "text"; p_text := Some "Describe this"; p_image_url := None |};
             {| p_type := "image_url"; p_text := None;
                p_image_url := Some {| url := "data:image/png;base64,abc123" |} |} ].
Proof.
  exact (proj1 (proj2 (blocks_translated_in_order imageMessage _ eq_refl))).
Defined.

(** C7: when every message has string content, the translated request
    holds, after the system message if there is one, a message with the
    same role and the same content for each message of the request, in
    order; [model], [max_tokens], [temperature] and [stream] are copied,
    an absent optional field staying absent. Tools play no part. *)
Theorem string_request_lossless (request : AnthropicRequest) :
  Forall (fun m => exists s, content m = Str s) (messages request) ->
  let out := convertAnthropicToOpenAI request in
  (exists copied,
      o_messages out = (systemMessages request ++ copied)%list
      /\ Forall2 sameRoleAndText (messages request) copied)
  /\ (system request = None -> systemMessages request = [])
  /\ o_model out = model request
  /\ o_max_tokens out = max_tokens request
  /\ o_temperature out = temperature request
  /\ o_stream out = stream request.
Proof.
  intros Hstr. simpl. split.
  - exists (List.map convertMessage (messages request)). split.
    + apply convertMessages_map.
    + induction Hstr as [|m ms (s & Hs) _ IH]; simpl; constructor; [|exact IH].
      unfold sameRoleAndText, convertMessage. rewrite Hs. simpl. eauto.
  - split; [|repeat split].
    intros Hsys. unfold systemMessages. rewrite Hsys. reflexivity.
Qed.

Lemma string_request_lossless_witness :
  o_model (convertAnthropicToOpenAI helloRequest) = "claude-3"
  /\ o_max_tokens (convertAnthropicToOpenAI helloRequest) = 100
  /\ o_temperature (convertAnthropicToOpenAI helloRequest) = None
  /\ o_stream (convertAnthropicToOpenAI helloRequest) = None.
Proof.
  assert (Hstr : Forall (fun m => exists s, content m = Str s) (messages helloRequest)).
  { repeat constructor; eexists; reflexivity. }
  exact (proj2 (proj2 (string_request_lossless helloRequest Hstr))).
Defined.

Example convert_hello_request :
  o_messages (convertAnthropicToOpenAI helloRequest)
  = [ {| o_role := "user"; o_content := OStr "Hello" |};
      {| o_role := "assistant"; o_content := OStr "Hi there!" |};
      {| o_role := "user"; o_content := OStr "How are you?" |} ].
Proof. reflexivity. Qed.

End RequestTranslator.

(** ** The token counter *)

Section TokenCounter.
Import Js Tokens.

Variable enc_encode : string -> outcome (list N).

Abbreviation count := (countTokens enc_encode).

(** *** [ceil] and [countTokens] *)

Lemma ceilDiv_bounds n d : 0 < d -> d * (ceilDiv n d - 1) < n <= d * ceilDiv n d.
Proof.
  intros Hd. unfold ceilDiv.
  pose proof (Z.div_mod (- n) d ltac:(lia)) as Hdm.
  pose proof (Z.mod_pos_bound (- n) d Hd) as Hm.
  nia.
Qed.

Lemma ceilDiv_nonneg n d : 0 < d -> 0 <= n -> 0 <= ceilDiv n d.
Proof.
  intros Hd Hn. pose proof (ceilDiv_bounds n d Hd). nia.
Qed.

Lemma strLength_nonneg s : 0 <= strLength s.
Proof. unfold strLength. lia. Qed.

Lemma countTokens_encoded text tokens :
  enc_encode text = Returns tokens -> count text = Z.of_nat (length tokens).
Proof. intros H. unfold countTokens, encodeLength. rewrite H. reflexivity. Qed.

(** On an encoding failure [countTokens] returns [ceil(len(text)/4)]. *)
Lemma countTokens_fallback text :
  enc_encode text = Throws -> count text = ceilDiv (strLength text) 4.
Proof. intros H. unfold countTokens, encodeLength. rewrite H. reflexivity. Qed.

(** [countTokens] returns an integer that is not negative. *)
Lemma countTokens_nonneg text : 0 <= count text.
Proof.
  unfold countTokens, encodeLength.
  destruct (enc_encode text) as [tokens|]; simpl.
  - lia.
  - apply ceilDiv_nonneg; [lia | apply strLength_nonneg].
Qed.

(** The legacy estimate goes through [countTokens] and recovers too. *)
Lemma estimateRequestTokens_fallback messages :
  enc_encode (JSON_stringify messages) = Throws ->
  estimateRequestTokens enc_encode messages
  = ceilDiv (strLength (JSON_stringify messages)) 4.
Proof. intros H. unfold estimateRequestTokens. apply countTokens_fallback, H. Qed.

(** The structural counter does not: a text the encoder refuses makes it
    throw. *)
Lemma calculateTokenCount_propagates text ms system tools :
  enc_encode text = Throws ->
  calculateTokenCount enc_encode ({| m_content := MStr text |} :: ms) system tools = Throws.
Proof.
  intros H. unfold calculateTokenCount; cbn [forOf]; unfold countMessage; cbn [m_content].
  unfold encodeLength. rewrite H. reflexivity.
Qed.

(** *** The loops compute sums *)

Lemma forOf_sum {A : Type} (body : Z -> A -> outcome Z) (f : A -> Z) (l : list A) :
  Forall (fun x => forall t, body t x = Returns (t + f x)) l ->
  forall t, forOf body t l = Returns (t + sumZ (List.map f l)).
Proof.
  induction 1 as [|x l Hx _ IH]; intros t; simpl.
  - f_equal. lia.
  - rewrite Hx. simpl. rewrite IH. f_equal. lia.
Qed.

Lemma Forall_flat_map_each {A B : Type} (P : B -> Prop) (f : A -> list B) (l : list A) :
  Forall P (flat_map f l) -> Forall (fun x => Forall P (f x)) l.
Proof.
  induction l as [|x l IH]; simpl; intros H; constructor.
  - apply Forall_app in H. apply H.
  - apply IH. apply Forall_app in H. apply H.
Qed.

Lemma sumZ_app (l1 l2 : list Z) : sumZ (l1 ++ l2) = sumZ l1 + sumZ l2.
Proof. induction l1 as [|x l1 IH]; simpl; [reflexivity | rewrite IH; lia]. Qed.

Lemma sumZ_flat_map {A : Type} (f : A -> Z) (g : A -> list string) (l : list A) :
  (forall x, f x = sumZ (List.map count (g x))) ->
  sumZ (List.map f l) = sumZ (List.map count (flat_map g l)).
Proof.
  intros Hfg. induction l as [|x l IH]; simpl; [reflexivity|].
  rewrite List.map_app, sumZ_app, IH, Hfg. reflexivity.
Qed.

Lemma encodeLength_count text :
  accepted enc_encode text -> encodeLength enc_encode text = Returns (count text).
Proof.
  unfold accepted, countTokens, encodeLength. intros Hacc.
  destruct (enc_encode text); [reflexivity | contradiction].
Qed.

Lemma encodeLength_one text t :
  Forall (accepted enc_encode) [text] ->
  bind (encodeLength enc_encode text) (fun n => Returns (t + n)) = Returns (t + count text).
Proof.
  intros H. inversion H; subst. rewrite encodeLength_count by assumption. reflexivity.
Qed.

Lemma countBlock_sum b t :
  Forall (accepted enc_encode) (blockTexts b) ->
  (type b = "tool_result" -> content b <> None) ->
  countBlock enc_encode t b = Returns (t + blockTokens enc_encode b).
Proof.
  intros Hacc Hc. unfold countBlock, blockTokens. unfold blockTexts in Hacc.
  destruct (str_eq (type b) "text") eqn:E1.
  { apply str_eq_true in E1. rewrite E1. simpl.
    destruct (text b) as [s|]; simpl; [|f_equal; lia].
    unfold truthy_str. destruct (str_eq s EmptyString); simpl; [f_equal; lia|].
    apply encodeLength_one, Hacc. }
  simpl. destruct (str_eq (type b) "tool_use") eqn:E2.
  { apply str_eq_true in E2. rewrite E2. simpl.
    destruct (input b) as [v|]; simpl; [|f_equal; lia].
    destruct (truthy v); simpl; [|f_equal; lia].
    apply encodeLength_one, Hacc. }
  simpl.
  destruct (str_eq (type b) "tool_result") eqn:E3; simpl; [|f_equal; lia].
  apply str_eq_true in E3. specialize (Hc E3).
  destruct (content b) as [v|]; [|contradiction].
  destruct v; simpl; apply encodeLength_one, Hacc.
Qed.

Lemma countMessage_sum m t :
  Forall (accepted enc_encode) (messageTexts m) ->
  match m_content m with
  | MBlocks bs => Forall (fun b => type b = "tool_result" -> content b <> None) bs
  | _ => True
  end ->
  countMessage enc_encode t m = Returns (t + messageTokens enc_encode m).
Proof.
  unfold countMessage, messageTokens, messageTexts.
  destruct (m_content m) as [s|bs|]; intros Hacc H.
  - apply encodeLength_one, Hacc.
  - apply forOf_sum. apply Forall_flat_map_each in Hacc.
    apply Forall_forall. intros b Hb t'. apply countBlock_sum.
    + exact (proj1 (Forall_forall _ _) Hacc b Hb).
    + exact (proj1 (Forall_forall _ _) H b Hb).
  - f_equal. lia.
Qed.

Lemma countSystem_sum system t :
  Forall (accepted enc_encode) (systemTexts system) ->
  countSystem enc_encode t system = Returns (t + systemTokens enc_encode system).
Proof.
  unfold countSystem, systemTokens, systemTexts. destruct system as [[s|items]|]; intros Hacc.
  - apply encodeLength_one, Hacc.
  - apply forOf_sum. apply Forall_flat_map_each in Hacc.
    eapply Forall_impl; [exact Hacc|]. intros item Hitem t'.
    unfold countSystemItem, systemItemTokens. unfold systemItemTexts in Hitem.
    destruct (text item) as [s|]; [|f_equal; lia].
    destruct (str_eq (type item) "text"); [|f_equal; lia].
    apply encodeLength_one, Hitem.
  - f_equal. lia.
Qed.

Lemma countIfTruthy_sum o t :
  Forall (accepted enc_encode) (nonEmptyText o) ->
  countIfTruthy enc_encode t o = Returns (t + nonEmptyTokens enc_encode o).
Proof.
  unfold countIfTruthy, nonEmptyTokens, nonEmptyText.
  destruct o as [s|]; simpl; [|intros _; f_equal; lia].
  unfold truthy_str. destruct (str_eq s EmptyString); simpl; [intros _; f_equal; lia|].
  apply encodeLength_one.
Qed.

Lemma countTool_sum tool t :
  Forall (accepted enc_encode) (toolTexts tool) ->
  countTool enc_encode t tool = Returns (t + toolTokens enc_encode tool).
Proof.
  unfold countTool, toolTokens, toolTexts. intros Hacc.
  apply Forall_app in Hacc as [Hn Hacc]. apply Forall_app in Hacc as [Hd Hs].
  rewrite (countIfTruthy_sum _ _ Hn). cbn [bind].
  rewrite (countIfTruthy_sum _ _ Hd). cbn [bind].
  destruct (input_schema tool) as [v|]; simpl; [|f_equal; lia].
  destruct (truthy v); simpl; [|f_equal; lia].
  inversion Hs; subst. rewrite encodeLength_count by assumption. simpl. f_equal. lia.
Qed.

Lemma countTools_sum tools t :
  Forall (accepted enc_encode) (toolsTexts tools) ->
  countTools enc_encode t tools = Returns (t + toolsTokens enc_encode tools).
Proof.
  unfold countTools, toolsTokens, toolsTexts. destruct tools as [ts|]; intros Hacc;
    [|f_equal; lia].
  apply forOf_sum. apply Forall_flat_map_each in Hacc.
  eapply Forall_impl; [exact Hacc|]. intros tool Htool t'. apply countTool_sum, Htool.
Qed.

(** The sum of the categories is the sum over the encoded texts. *)
Lemma sum_over_encodedTexts messages system tools :
  sumZ (List.map (messageTokens enc_encode) messages)
  + systemTokens enc_encode system + toolsTokens enc_encode tools
  = sumZ (List.map count (encodedTexts messages system tools)).
Proof.
  unfold encodedTexts. rewrite !List.map_app, !sumZ_app.
  assert (Hone : forall s, count s = sumZ (List.map count [s])) by (intros s; simpl; lia).
  assert (Hnone : forall o, nonEmptyTokens enc_encode o
                            = sumZ (List.map count (nonEmptyText o))).
  { intros [s|]; simpl; [|reflexivity]. destruct (str_eq s EmptyString); simpl; lia. }
  rewrite Z.add_assoc. f_equal; [f_equal|].
  - apply sumZ_flat_map. intros m. unfold messageTokens, messageTexts.
    destruct (m_content m) as [s|bs|]; [apply Hone | | reflexivity].
    apply sumZ_flat_map. intros b. unfold blockTokens, blockTexts.
    destruct (str_eq (type b) "text").
    { destruct (text b) as [s|]; [|reflexivity].
      destruct (str_eq s EmptyString); [reflexivity | apply Hone]. }
    destruct (str_eq (type b) "tool_use").
    { destruct (input b) as [v|]; [|reflexivity].
      destruct (truthy v); [apply Hone | reflexivity]. }
    destruct (str_eq (type b) "tool_result"); [|reflexivity].
    destruct (content b) as [v|]; [|reflexivity]. destruct v; apply Hone.
  - unfold systemTokens, systemTexts. destruct system as [[s|items]|];
      [apply Hone | | reflexivity].
    apply sumZ_flat_map. intros item. unfold systemItemTokens, systemItemTexts.
    destruct (text item) as [s|]; [|reflexivity].
    destruct (str_eq (type item) "text"); [apply Hone | reflexivity].
  - unfold toolsTokens, toolsTexts. destruct tools as [ts|]; [|reflexivity].
    apply sumZ_flat_map. intros tool. unfold toolTokens, toolTexts.
    rewrite !List.map_app, !sumZ_app, !Hnone, <- Z.add_assoc. do 2 f_equal.
    destruct (input_schema tool) as [v|]; [|reflexivity].
    destruct (truthy v); [apply Hone | reflexivity].
Qed.

(** C5, amended: when the encoder accepts each text the counter hands to it
    and every [tool_result] block has a content, the structural counter
    returns the sum of the token counts of those texts: every string
    message content, every non-empty text block, the JSON-serialized form
    of every truthy [tool_use.input], every [tool_result.content] (the
    string itself when it is a string, its JSON-serialized form
    otherwise), every system-prompt text, and for each tool its non-empty
    name, its non-empty description and its JSON-serialized truthy input
    schema; for the single user message [Hello], without system and tools,
    it returns the encoder's count of [Hello] when the encoder accepts
    [Hello]. *)
Theorem structural_count_is_sum (messages : list Message) (system : option SystemPrompt)
  (tools : option (list Tool)) :
  (Forall (accepted enc_encode) (encodedTexts messages system tools) ->
   resultsHaveContent messages ->
   calculateTokenCount enc_encode messages system tools
   = Returns (sumZ (List.map (messageTokens enc_encode) messages)
              + systemTokens enc_encode system + toolsTokens enc_encode tools)
   /\ calculateTokenCount enc_encode messages system tools
      = Returns (sumZ (List.map count (encodedTexts messages system tools))))
  /\ (enc_encode "Hello" <> Throws ->
      calculateTokenCount enc_encode [ {| m_content := MStr "Hello" |} ] None None
      = Returns (count "Hello")).
Proof.
  split.
  - intros Hacc Hres. rewrite <- sum_over_encodedTexts.
    assert (Hcalc : calculateTokenCount enc_encode messages system tools
                    = Returns (sumZ (List.map (messageTokens enc_encode) messages)
                               + systemTokens enc_encode system
                               + toolsTokens enc_encode tools)); [|split; exact Hcalc].
    unfold encodedTexts in Hacc.
    apply Forall_app in Hacc as [Hm Hacc]. apply Forall_app in Hacc as [Hs Ht].
    unfold calculateTokenCount.
    rewrite (forOf_sum (countMessage enc_encode) (messageTokens enc_encode)).
    + cbn [bind]. rewrite (countSystem_sum _ _ Hs). cbn [bind].
      rewrite (countTools_sum _ _ Ht). f_equal.
    + apply Forall_flat_map_each in Hm. apply Forall_forall. intros m Hin t.
      apply countMessage_sum.
      * exact (proj1 (Forall_forall _ _) Hm m Hin).
      * exact (proj1 (Forall_forall _ _) Hres m Hin).
  - intros Hhello. unfold calculateTokenCount. cbn [forOf]. unfold countMessage.
    cbn [m_content]. rewrite (encodeLength_count "Hello" Hhello). reflexivity.
Qed.

End TokenCounter.

Section TokenCounterRuns.
Import Js Tokens.

Lemma charEncoder_accepts text : charEncoder text <> Throws.
Proof. discriminate. Qed.

Lemma demo_results_have_content : resultsHaveContent demoMessages.
Proof.
  unfold demoMessages. repeat constructor; simpl; discriminate.
Qed.

(** The guarded encoder, which refuses some texts, accepts the ones of
    the sample request. *)
Lemma demo_texts_accepted :
  Forall (accepted guardedEncoder) (encodedTexts demoMessages demoSystem demoTools).
Proof. repeat constructor; unfold accepted; vm_compute; discriminate. Qed.

Lemma structural_count_is_sum_witness :
  calculateTokenCount guardedEncoder demoMessages demoSystem demoTools
  = Returns (sumZ (List.map (countTokens guardedEncoder)
                     (encodedTexts demoMessages demoSystem demoTools)))
  /\ calculateTokenCount guardedEncoder [ {| m_content := MStr "Hello" |} ] None None
     = Returns (countTokens guardedEncoder "Hello").
Proof.
  pose proof (structural_count_is_sum guardedEncoder demoMessages demoSystem demoTools)
    as [Hsum Hhello].
  split.
  - apply Hsum; [exact demo_texts_accepted | exact demo_results_have_content].
  - apply Hhello. vm_compute. discriminate.
Defined.

Example demo_count :
  calculateTokenCount charEncoder demoMessages demoSystem demoTools = Returns 112.
Proof. vm_compute. reflexivity. Qed.

(** C5, as stated, fails: the content of a [tool_result] block that is a
    string is counted as it is, not in its JSON-serialized form (which
    has the two quotes more). *)
Lemma string_tool_result_counted_raw :
  calculateTokenCount charEncoder stringResultMessages None None = Returns 2
  /\ specTokenCount charEncoder stringResultMessages None None = 4
  /\ calculateTokenCount charEncoder stringResultMessages None None
     <> Returns (specTokenCount charEncoder stringResultMessages None None).
Proof. repeat split. discriminate. Qed.

(** A [tool_use] block whose input is [null] counts for nothing, where
    the serialized form of its input has four characters. *)
Example null_tool_input_not_counted :
  calculateTokenCount charEncoder nullInputMessages None None = Returns 0
  /\ specTokenCount charEncoder nullInputMessages None None = 4.
Proof. split; reflexivity. Qed.

(** The same with any encoder that gives no token to the empty text and
    some token to a text that is not empty: an empty string content counts
    for nothing, its serialized form (two quotes) would count. *)
Lemma empty_tool_result_not_serialized (enc_encode : string -> outcome (list N)) tokens :
  enc_encode EmptyString = Returns [] ->
  enc_encode (JSON_stringify (VStr EmptyString)) = Returns tokens -> tokens <> [] ->
  let messages :=
    [ {| m_content := MBlocks [ {| type := "tool_result"; text := None; input := None;
                                   content := Some (VStr EmptyString) |} ] |} ] in
  calculateTokenCount enc_encode messages None None = Returns 0
  /\ 0 < specTokenCount enc_encode messages None None.
Proof.
  intros He Hq Hne messages. split.
  - subst messages. unfold calculateTokenCount. cbn [forOf]. unfold countMessage.
    cbn [m_content forOf]. unfold countBlock. cbn. unfold encodeLength. rewrite He.
    reflexivity.
  - subst messages. unfold specTokenCount, specMessageTokens. cbn [List.map m_content].
    unfold specBlockTokens. cbn [type content str_eq String.eqb Ascii.eqb Bool.eqb
      serializedTokens].
    rewrite (countTokens_encoded _ _ _ Hq). destruct tokens; [contradiction|simpl; lia].
Qed.

(** C6: the structural counter does not recover from an encoding failure.
    On the text [<|endoftext|>], which the guarded encoder refuses,
    [countTokens] falls back to [ceil(13/4) = 4] and so does the legacy
    estimate, while [calculateTokenCount] throws. *)
Theorem structural_count_surfaces_encoder_failure :
  guardedEncoder "<|endoftext|>" = Throws
  /\ countTokens guardedEncoder "<|endoftext|>" = ceilDiv (strLength "<|endoftext|>") 4
  /\ countTokens guardedEncoder "<|endoftext|>" = 4
  /\ estimateRequestTokens guardedEncoder (VStr "<|endoftext|>") = 4
  /\ calculateTokenCount guardedEncoder [ {| m_content := MStr "<|endoftext|>" |} ] None None
     = Throws.
Proof. repeat split. Qed.

End TokenCounterRuns.

(** ** Request preprocessing *)

Section Preprocessing.
Import Js Routes.

(** *** fixTrailingAssistant *)

Lemma at_index_last {A : Type} (l : list A) :
  at_index l (Z.of_nat (length l) - 1) = last l.
Proof.
  unfold at_index. destruct l as [|x l]; [reflexivity|].
  replace (Z.of_nat (length (x :: l)) - 1) with (Z.of_nat (length l)) by (simpl; lia).
  destruct (Z.ltb_spec (Z.of_nat (length l)) 0) as [Hneg|_]; [lia|].
  rewrite Nat2Z.id. revert x.
  induction l as [|y l IH]; intros x; [reflexivity|].
  simpl. rewrite <- (IH y). reflexivity.
Qed.

Lemma lastRole_snoc req m :
  lastRole {| messages := messages req ++ [m]; r_fields := r_fields req |} = Some (role m).
Proof. unfold lastRole. simpl. rewrite last_snoc. reflexivity. Qed.

(** C9: when the last message of a request comes from the assistant, the
    step appends one message, with role [user] and content [Continue.]
    and no other field, and nothing else changes; otherwise (an empty list
    of messages included) the request is returned as it is; in both cases
    the result does not end with an assistant message. *)
Theorem trailing_assistant_fixed (req : AnthropicRequest) :
  (lastRole req = Some "assistant" ->
   fixTrailingAssistant req
   = {| messages :=
          messages req
          ++ [ {| role := "user"; content := CStr "Continue."; m_fields := ∅ |} ];
        r_fields := r_fields req |})
  /\ (lastRole req <> Some "assistant" -> fixTrailingAssistant req = req)
  /\ lastRole (fixTrailingAssistant req) <> Some "assistant".
Proof.
  unfold fixTrailingAssistant. rewrite at_index_last.
  unfold lastRole at 1 2. destruct (last (messages req)) as [m|] eqn:El; simpl.
  - destruct (str_eq (role m) "assistant") eqn:Er.
    + apply str_eq_true in Er. repeat split; try congruence.
      rewrite lastRole_snoc. discriminate.
    + apply str_eq_false in Er. repeat split; try congruence.
      unfold lastRole. rewrite El. simpl. congruence.
  - repeat split; try congruence. unfold lastRole. rewrite El. discriminate.
Qed.

Lemma trailing_assistant_fixed_witness :
  fixTrailingAssistant endsWithAssistant
  = {| messages :=
         [ {| role := "user"; content := CStr "Hello"; m_fields := ∅ |};
           {| role := "assistant"; content := CStr "Let me"; m_fields := ∅ |};
           {| role := "user"; content := CStr "Continue."; m_fields := ∅ |} ];
       r_fields := {[ "model" := VStr "m" ]} |}
  /\ fixTrailingAssistant endsWithUser = endsWithUser.
Proof.
  split.
  - apply (proj1 (trailing_assistant_fixed endsWithAssistant)). reflexivity.
  - apply (proj1 (proj2 (trailing_assistant_fixed endsWithUser))). discriminate.
Defined.

(** *** normalizeToolIds *)

Lemma normalizeBlock_frame (b : Block) : blockFrame b (normalizeBlock b).
Proof.
  unfold blockFrame, carriedToolUseId, normalizeBlock.
  destruct (b !! "type") as [ty|]; [destruct ty as [| | |t| |]|];
    destruct (b !! "tool_use_id") as [v|]; simpl; try reflexivity.
  - destruct (str_eq t "tool_result"); simpl; [|reflexivity].
    destruct (truthy v); [|reflexivity].
    split; [apply lookup_insert_eq|].
    intros k Hk. apply lookup_insert_ne. congruence.
  - destruct (str_eq t "tool_result"); reflexivity.
Qed.

Lemma Forall2_map_self {A : Type} (R : A -> A -> Prop) (f : A -> A) (l : list A) :
  (forall x, R x (f x)) -> Forall2 R l (List.map f l).
Proof. intros H. induction l; simpl; constructor; auto. Qed.

Lemma normalizeMessage_frame (m : Message) : messageFrame m (normalizeMessage m).
Proof.
  unfold messageFrame, normalizeMessage.
  destruct (content m) as [s|bs|] eqn:Ec; simpl; rewrite ?Ec; repeat split.
  exists (List.map normalizeBlock bs). split; [reflexivity|].
  apply Forall2_map_self, normalizeBlock_frame.
Qed.

(** C10: the step gives each [tool_result] block that carries a
    (truthy) [tool_use_id] that value as its [id] and changes nothing
    else: the other fields of such a block, the blocks of other types, the
    [tool_result] blocks without [tool_use_id], the messages with string
    content, the number and order of messages and blocks, and the fields
    of the request other than [messages]. *)
Theorem tool_ids_copied_frame (req : AnthropicRequest) :
  r_fields (normalizeToolIds req) = r_fields req
  /\ length (messages (normalizeToolIds req)) = length (messages req)
  /\ Forall2 messageFrame (messages req) (messages (normalizeToolIds req)).
Proof.
  unfold normalizeToolIds. simpl. split; [reflexivity|]. split.
  - apply length_map.
  - apply Forall2_map_self, normalizeMessage_frame.
Qed.

Example normalize_result_block :
  normalizeBlock resultBlock = <["id" := VStr "toolu_1"]> resultBlock
  /\ normalizeBlock useBlock = useBlock.
Proof. split; reflexivity. Qed.

(** A [tool_use_id] that is the empty string is not copied. *)
Example normalize_empty_tool_use_id :
  normalizeBlock {[ "type" := VStr "tool_result"; "tool_use_id" := VStr EmptyString ]}
  = {[ "type" := VStr "tool_result"; "tool_use_id" := VStr EmptyString ]}.
Proof. reflexivity. Qed.

End Preprocessing.

(** ** The tool-call ID normaliser *)

Section ToolIdNormaliser.
Import ToolIds.

Local Open Scope nat_scope.

Lemma length_app_string (s t : string) :
  String.length (s ++ t) = String.length s + String.length t.
Proof. induction s as [|c s IH]; simpl; [reflexivity | rewrite IH; reflexivity]. Qed.

Lemma length_replicate n c : String.length (replicate n c) = n.
Proof. induction n as [|n IH]; simpl; [reflexivity | rewrite IH; reflexivity]. Qed.

Lemma length_truncate width s :
  width <= String.length s -> String.length (truncate width s) = width.
Proof.
  unfold truncate. revert s. induction width as [|w IH]; intros s Hw.
  - destruct s; reflexivity.
  - destruct s as [|c s]; simpl in *; [lia|]. rewrite IH; [reflexivity | lia].
Qed.

Lemma truncate_exact s : truncate (String.length s) s = s.
Proof.
  unfold truncate. induction s as [|c s IH]; simpl; [reflexivity | rewrite IH; reflexivity].
Qed.

Lemma length_padStart width pad s : width <= String.length (padStart width pad s).
Proof. unfold padStart. rewrite length_app_string, length_replicate. lia. Qed.

(** [fit] gives exactly nine characters, whatever it is given. *)
Lemma length_fit pad s : String.length (fit pad s) = idLength.
Proof. unfold fit. apply length_truncate, length_padStart. Qed.

Local Open Scope Z_scope.

Lemma fnvStep_range h c : 0 <= fnvStep h c < 2 ^ 32.
Proof. unfold fnvStep. apply Z.mod_pos_bound. lia. Qed.

(** The hash is a 32-bit number. *)
Lemma fnv1a_32_range s : 0 <= fnv1a_32 s < 2 ^ 32.
Proof.
  unfold fnv1a_32.
  assert (H : 0 <= fnvOffsetBasis < 2 ^ 32) by (unfold fnvOffsetBasis; lia).
  revert H. generalize fnvOffsetBasis. induction s as [|c s IH]; intros h Hh; simpl.
  - exact Hh.
  - apply IH, fnvStep_range.
Qed.

Lemma digitValue_base36Digit (k : nat) :
  (k < 36)%nat -> digitValue (base36Digit (Z.of_nat k)) = Z.of_nat k.
Proof.
  intros Hk. do 36 (destruct k as [|k]; [reflexivity|]). lia.
Qed.

Lemma digitValue_base36Digit_Z d : 0 <= d < 36 -> digitValue (base36Digit d) = d.
Proof.
  intros Hd. rewrite <- (Z2Nat.id d) by lia. apply digitValue_base36Digit. lia.
Qed.

(** Reading a base-36 numeral back gives the number. *)
Lemma numeralValue_base36From fuel : forall n acc,
  0 <= n < 36 ^ Z.of_nat fuel ->
  numeralValue 0 (base36From fuel n acc) = numeralValue n acc.
Proof.
  induction fuel as [|fuel IH]; intros n acc Hn.
  - simpl in Hn. assert (n = 0) by lia. subst. reflexivity.
  - rewrite Nat2Z.inj_succ, Z.pow_succ_r in Hn by lia.
    pose proof (Z.div_mod n 36 ltac:(lia)) as Hdm.
    pose proof (Z.mod_pos_bound n 36 ltac:(lia)) as Hm.
    simpl. destruct (Z.eqb_spec (n / 36) 0) as [Hz|Hnz].
    + simpl. rewrite digitValue_base36Digit_Z by lia. f_equal. lia.
    + rewrite IH.
      * simpl. rewrite digitValue_base36Digit_Z by lia. f_equal. lia.
      * split; [apply Z.div_pos; lia|]. apply Z.div_lt_upper_bound; lia.
Qed.

Lemma numeralValue_base36 n : 0 <= n < 2 ^ 32 -> numeralValue 0 (base36 n) = n.
Proof.
  intros Hn. unfold base36. rewrite numeralValue_base36From; [reflexivity|].
  change (36 ^ Z.of_nat 7) with 78364164096. lia.
Qed.

Lemma length_base36From fuel : forall n acc,
  (String.length acc < String.length (base36From (S fuel) n acc)
   <= S fuel + String.length acc)%nat.
Proof.
  induction fuel as [|fuel IH]; intros n acc.
  - simpl. destruct (n / 36 =? 0); simpl; lia.
  - change (base36From (S (S fuel)) n acc)
      with (let acc' := String (base36Digit (n mod 36)) acc in
            if n / 36 =? 0 then acc' else base36From (S fuel) (n / 36) acc').
    simpl. destruct (n / 36 =? 0); [simpl; lia|].
    specialize (IH (n / 36) (String (base36Digit (n mod 36)) acc)). simpl in IH. lia.
Qed.

(** A base-36 numeral of the hash has one to seven digits: the short
    identifier is the numeral, padded, and nothing is cut off. *)
Lemma shortId_padded pad s :
  (1 <= String.length (base36 (fnv1a_32 s)) <= 7)%nat
  /\ shortId pad s = padStart idLength pad (base36 (fnv1a_32 s)).
Proof.
  pose proof (length_base36From 6 (fnv1a_32 s) EmptyString) as Hl.
  change (base36From 7 (fnv1a_32 s) EmptyString) with (base36 (fnv1a_32 s)) in Hl.
  change (String.length EmptyString) with 0%nat in Hl. split; [lia|].
  unfold shortId, fit.
  assert (Hp : String.length (padStart idLength pad (base36 (fnv1a_32 s))) = idLength).
  { unfold padStart, idLength. rewrite length_app_string, length_replicate. lia. }
  rewrite <- Hp at 1. apply truncate_exact.
Qed.

(** The forward mapping does not depend on the mapping recorded so far. *)
Lemma normalize_fst pad m s : fst (normalize pad m s) = shortId pad s.
Proof. unfold normalize. destruct (forward m !! s); reflexivity. Qed.

(** C3: the short identifier of [s] is [base36(fnv1a_32(s))] fitted to
    nine characters; its length is exactly 9; and normalising [s] a second
    time, in the mapping the first call leaves, gives the same short
    identifier and leaves the mapping as it is. *)
Theorem short_id_deterministic (pad : ascii) (s : string) :
  shortId pad s = fit pad (base36 (fnv1a_32 s))
  /\ String.length (shortId pad s) = 9%nat
  /\ forall m : ToolIdMapping,
       fst (normalize pad m s) = shortId pad s
       /\ fst (normalize pad (snd (normalize pad m s)) s) = fst (normalize pad m s)
       /\ snd (normalize pad (snd (normalize pad m s)) s) = snd (normalize pad m s).
Proof.
  split; [reflexivity|]. split; [apply length_fit|].
  intros m. split; [apply normalize_fst|]. split.
  - rewrite !normalize_fst. reflexivity.
  - unfold normalize at 2 3. destruct (forward m !! s) as [old|] eqn:Ef; simpl.
    + unfold normalize. rewrite Ef. reflexivity.
    + unfold normalize. simpl. rewrite lookup_insert_eq. reflexivity.
Qed.

Example fnv1a_32_vectors :
  fnv1a_32 EmptyString = 2166136261
  /\ fnv1a_32 "a" = 3826002220
  /\ fnv1a_32 "foobar" = 3214735720.
Proof. repeat split. Qed.

Example shortId_example :
  shortId "0" "toolu_01A09q90qw90lq917835lq9" = "000v35at1".
Proof. vm_compute. reflexivity. Qed.

End ToolIdNormaliser.

(** ** Further properties of the translator *)

Section TranslatorMore.
Import Translator.

(** The translated request has, in order, a system message when the
    system prompt is a non-empty string, then one message for each message
    of the request, with its role, whatever the contents are; an absent or
    empty system prompt adds no message. *)
Theorem translated_roles_in_order (request : AnthropicRequest) :
  let out := convertAnthropicToOpenAI request in
  List.map o_role (o_messages out)
  = (List.map o_role (systemMessages request) ++ List.map role (messages request))%list
  /\ (forall s, system request = Some s -> s <> EmptyString ->
      systemMessages request = [ {| o_role := "system"; o_content := OStr s |} ]
      /\ length (o_messages out) = S (length (messages request)))
  /\ (system request = None \/ system request = Some EmptyString ->
      systemMessages request = []
      /\ length (o_messages out) = length (messages request)).
Proof.
  simpl. rewrite convertMessages_map. split; [|split].
  - rewrite List.map_app, List.map_map. f_equal.
    apply List.map_ext. intros m. unfold convertMessage. destruct (content m); reflexivity.
  - intros s Hs Hne. unfold systemMessages. rewrite Hs.
    apply truthy_str_nonempty in Hne. rewrite Hne. split; [reflexivity|].
    rewrite length_app, length_map. reflexivity.
  - intros Hs. unfold systemMessages.
    destruct Hs as [Hs|Hs]; rewrite Hs; simpl; rewrite length_map; split; reflexivity.
Qed.

Lemma translated_roles_in_order_witness :
  List.map o_role (o_messages (convertAnthropicToOpenAI visionRequest))
  = ["system"; "user"; "assistant"; "user"]
  /\ length (o_messages (convertAnthropicToOpenAI helloRequest)) = 3%nat.
Proof.
  split.
  - exact (proj1 (translated_roles_in_order visionRequest)).
  - apply (proj2 (proj2 (translated_roles_in_order helloRequest))). left. reflexivity.
Defined.

Lemma convertBlock_shape b :
  Forall (fun p => p_type p = "text" \/ p_type p = "image_url") (convertBlock b)
  /\ length (convertBlock b) = (if translatable b then 1 else 0)%nat.
Proof.
  unfold convertBlock, translatable.
  destruct (Js.str_eq (type b) "text"); simpl.
  { split; [|reflexivity]. constructor; [left; reflexivity | constructor]. }
  destruct (Js.str_eq (type b) "image"); simpl; [|split; [constructor|reflexivity]].
  destruct (source b); split; try reflexivity; [|constructor].
  constructor; [right; reflexivity | constructor].
Qed.

(** The parts of a translated block array are text parts and image
    references only, one for each text block and each image block with a
    source: the translation adds no part. *)
Theorem parts_are_text_or_image (msg : AnthropicMessage) (bs : list AnthropicContentBlock) :
  content msg = Blocks bs ->
  Forall (fun p => p_type p = "text" \/ p_type p = "image_url") (partsOf (convertMessage msg))
  /\ length (partsOf (convertMessage msg)) = length (List.filter translatable bs)
  /\ (length (partsOf (convertMessage msg)) <= length bs)%nat.
Proof.
  intros Hc. unfold partsOf, convertMessage. rewrite Hc. simpl.
  rewrite convertBlocks_flat_map. simpl.
  assert (Hlen : length (flat_map convertBlock bs) = length (List.filter translatable bs)).
  { clear Hc. induction bs as [|b bs' IH]; [reflexivity|]. simpl.
    rewrite length_app, IH, (proj2 (convertBlock_shape b)).
    destruct (translatable b); reflexivity. }
  split; [|split].
  - apply Forall_flat_map, Forall_forall. intros b _. apply convertBlock_shape.
  - exact Hlen.
  - rewrite Hlen. apply filter_length_le.
Qed.

Lemma parts_are_text_or_image_witness :
  length (partsOf (convertMessage imageMessage)) = 2%nat
  /\ (length (partsOf (convertMessage imageMessage)) <= 3)%nat.
Proof.
  split.
  - exact (proj1 (proj2 (parts_are_text_or_image imageMessage _ eq_refl))).
  - exact (proj2 (proj2 (parts_are_text_or_image imageMessage _ eq_refl))).
Defined.

Lemma num_or_zero o : Js.num_or o 0 = default 0 o.
Proof.
  unfold Js.num_or. destruct o as [n|]; [|reflexivity].
  destruct (Z.eqb_spec n 0) as [->|_]; reflexivity.
Qed.

(** The content of a translated response is never more than one block:
    the text of the first choice as a text block when that text is there
    and not empty, nothing otherwise, an empty text and further choices
    included. *)
Theorem response_content_is_first_text (response : OpenAIResponse) (originalModel : string) :
  let result := convertOpenAIToAnthropic response originalModel in
  (length (a_content result) <= 1)%nat
  /\ (forall b, In b (a_content result) ->
      exists s, b = textBlock s /\ s <> EmptyString /\ reportedText response = Some s)
  /\ (a_content result = [] <->
      reportedText response = None \/ reportedText response = Some EmptyString).
Proof.
  simpl. unfold responseContent. rewrite choiceText_reported.
  destruct (reportedText response) as [s|]; simpl.
  - destruct (Js.truthy_str s) eqn:E; simpl.
    + apply truthy_str_nonempty in E. split; [lia|]. split.
      * intros b [<-|[]]. eauto.
      * split; [discriminate|]. intros [H|H]; congruence.
    + unfold Js.truthy_str in E. apply negb_false_iff, str_eq_true in E. subst s.
      split; [lia|]. split; [intros b []|]. split; auto.
  - split; [lia|]. split; [intros b []|]. split; auto.
Qed.

(** The usage numbers the backend reports pass through as they are, zero
    included, whatever else is missing. *)
Theorem reported_usage_copied (response : OpenAIResponse) (originalModel : string)
  (u : OpenAIUsage) :
  usage response = Some u ->
  let result := convertOpenAIToAnthropic response originalModel in
  (forall n, prompt_tokens u = Some n -> input_tokens (a_usage result) = n)
  /\ (forall n, completion_tokens u = Some n -> output_tokens (a_usage result) = n).
Proof.
  intros Hu. simpl. unfold usagePrompt, usageCompletion. rewrite Hu.
  split; intros n Hn; rewrite Hn, num_or_zero; reflexivity.
Qed.

Lemma reported_usage_copied_witness :
  input_tokens (a_usage (convertOpenAIToAnthropic noChoices "claude-3")) = 10
  /\ output_tokens (a_usage (convertOpenAIToAnthropic noChoices "claude-3")) = 0.
Proof.
  pose proof (reported_usage_copied noChoices "claude-3" _ eq_refl) as [Hin Hout].
  split; [apply Hin | apply Hout]; reflexivity.
Defined.

End TranslatorMore.

(** ** Further properties of the token counter *)

Section TokenCounterMore.
Import Js Tokens.

Variable enc_encode : string -> outcome (list N).

(** When the encoder refuses a text, [countTokens] gives the least number
    of four-character pieces that cover it: the count is 0 for the empty
    text only, and never more than the length of the text. *)
Theorem fallback_is_quarter_length (text : string) :
  enc_encode text = Throws ->
  let c := countTokens enc_encode text in
  4 * (c - 1) < strLength text <= 4 * c
  /\ (c = 0 <-> text = EmptyString)
  /\ c <= strLength text.
Proof.
  intros Hthrow. simpl. rewrite (countTokens_fallback _ _ Hthrow).
  pose proof (ceilDiv_bounds (strLength text) 4 ltac:(lia)) as Hb.
  pose proof (strLength_nonneg text) as Hn.
  split; [exact Hb|]. split; [|lia]. split.
  - intros Hc. rewrite Hc in Hb. destruct text; [reflexivity|].
    unfold strLength in Hb. simpl String.length in Hb. lia.
  - intros ->. unfold strLength in *. simpl in *. lia.
Qed.

(** *** Every step adds to the running count what it would add to 0 *)

Lemma encodeArg_shift (arg : option string) t :
  bind (encodeArg enc_encode arg) (fun n => Returns (t + n))
  = bind (bind (encodeArg enc_encode arg) (fun n => Returns (0 + n)))
         (fun n => Returns (t + n)).
Proof. destruct (encodeArg enc_encode arg); reflexivity. Qed.

Lemma encodeLength_shift (text : string) t :
  bind (encodeLength enc_encode text) (fun n => Returns (t + n))
  = bind (bind (encodeLength enc_encode text) (fun n => Returns (0 + n)))
         (fun n => Returns (t + n)).
Proof. destruct (encodeLength enc_encode text); reflexivity. Qed.

Lemma forOf_shift {A : Type} (body : Z -> A -> outcome Z) (l : list A) :
  (forall t x, body t x = bind (body 0 x) (fun n => Returns (t + n))) ->
  forall t, forOf body t l = bind (forOf body 0 l) (fun n => Returns (t + n)).
Proof.
  intros Hbody. induction l as [|x l IH]; intros t; simpl.
  - f_equal. lia.
  - rewrite (Hbody t x). destruct (body 0 x) as [n|]; cbn [bind]; [|reflexivity].
    rewrite (IH (t + n)), (IH n). destruct (forOf body 0 l) as [m|]; cbn [bind];
      [f_equal; lia | reflexivity].
Qed.

Lemma forOf_app {A : Type} (body : Z -> A -> outcome Z) (l1 l2 : list A) t :
  forOf body t (l1 ++ l2) = bind (forOf body t l1) (fun t1 => forOf body t1 l2).
Proof.
  revert t. induction l1 as [|x l1 IH]; intros t; simpl; [reflexivity|].
  destruct (body t x) as [t'|]; cbn [bind]; [apply IH | reflexivity].
Qed.

Lemma countBlock_shift t b :
  countBlock enc_encode t b = bind (countBlock enc_encode 0 b) (fun n => Returns (t + n)).
Proof.
  unfold countBlock.
  destruct (str_eq (type b) "text" && truthy_ostr (text b)); [apply encodeArg_shift|].
  destruct (str_eq (type b) "tool_use" && truthy_opt (input b)); [apply encodeArg_shift|].
  destruct (str_eq (type b) "tool_result"); [apply encodeArg_shift|].
  cbn [bind]. f_equal. lia.
Qed.

Lemma countMessage_shift t m :
  countMessage enc_encode t m
  = bind (countMessage enc_encode 0 m) (fun n => Returns (t + n)).
Proof.
  unfold countMessage. destruct (m_content m) as [s|bs|].
  - apply encodeLength_shift.
  - apply forOf_shift. intros t' b. apply countBlock_shift.
  - cbn [bind]. f_equal. lia.
Qed.

Lemma countSystem_shift t system :
  countSystem enc_encode t system
  = bind (countSystem enc_encode 0 system) (fun n => Returns (t + n)).
Proof.
  unfold countSystem. destruct system as [[s|items]|].
  - apply encodeLength_shift.
  - apply forOf_shift. intros t' item. unfold countSystemItem.
    destruct (text item) as [s|]; [|cbn [bind]; f_equal; lia].
    destruct (str_eq (type item) "text"); [apply encodeLength_shift|].
    cbn [bind]. f_equal. lia.
  - cbn [bind]. f_equal. lia.
Qed.

Lemma countIfTruthy_shift t o :
  countIfTruthy enc_encode t o
  = bind (countIfTruthy enc_encode 0 o) (fun n => Returns (t + n)).
Proof.
  unfold countIfTruthy. destruct (truthy_ostr o); [apply encodeArg_shift|].
  cbn [bind]. f_equal. lia.
Qed.

Lemma countTool_shift t tool :
  countTool enc_encode t tool
  = bind (countTool enc_encode 0 tool) (fun n => Returns (t + n)).
Proof.
  unfold countTool.
  rewrite (countIfTruthy_shift t). destruct (countIfTruthy enc_encode 0 (name tool)) as [a|];
    cbn [bind]; [|reflexivity].
  rewrite (countIfTruthy_shift (t + a)), (countIfTruthy_shift a).
  destruct (countIfTruthy enc_encode 0 (description tool)) as [b|]; cbn [bind];
    [|reflexivity].
  destruct (truthy_opt (input_schema tool)); [|cbn [bind]; f_equal; lia].
  destruct (encodeArg enc_encode (JSON_stringify_opt (input_schema tool))) as [c|];
    cbn [bind]; [f_equal; lia | reflexivity].
Qed.

Lemma countTools_shift t tools :
  countTools enc_encode t tools
  = bind (countTools enc_encode 0 tools) (fun n => Returns (t + n)).
Proof.
  unfold countTools. destruct tools as [ts|].
  - apply forOf_shift. intros t' tool. apply countTool_shift.
  - cbn [bind]. f_equal. lia.
Qed.

(** The structural count is the sum of the counts of the messages alone,
    of the system prompt alone and of the tools alone, and it throws
    exactly when one of the three does. *)
Theorem structural_count_splits (messages : list Message) (system : option SystemPrompt)
  (tools : option (list Tool)) :
  calculateTokenCount enc_encode messages system tools
  = bind (calculateTokenCount enc_encode messages None None) (fun a =>
    bind (calculateTokenCount enc_encode [] system None) (fun b =>
    bind (calculateTokenCount enc_encode [] None tools) (fun c =>
    Returns (a + b + c)))).
Proof.
  unfold calculateTokenCount. cbn [forOf bind countSystem countTools].
  destruct (forOf (countMessage enc_encode) 0 messages) as [a|]; cbn [bind]; [|reflexivity].
  rewrite (countSystem_shift a).
  destruct (countSystem enc_encode 0 system) as [b|]; cbn [bind]; [|reflexivity].
  rewrite (countTools_shift (a + b)).
  destruct (countTools enc_encode 0 tools) as [c|]; cbn [bind]; reflexivity.
Qed.

(** Counting a conversation put together from two is adding the two
    counts; it throws exactly when one of the two does. *)
Theorem structural_count_of_append (ms1 ms2 : list Message) :
  calculateTokenCount enc_encode (ms1 ++ ms2) None None
  = bind (calculateTokenCount enc_encode ms1 None None) (fun a =>
    bind (calculateTokenCount enc_encode ms2 None None) (fun b =>
    Returns (a + b))).
Proof.
  unfold calculateTokenCount. cbn [bind countSystem countTools].
  rewrite forOf_app.
  destruct (forOf (countMessage enc_encode) 0 ms1) as [a|]; cbn [bind]; [|reflexivity].
  rewrite (forOf_shift (countMessage enc_encode) ms2
             (fun t m => countMessage_shift t m) a).
  destruct (forOf (countMessage enc_encode) 0 ms2) as [b|]; cbn [bind]; reflexivity.
Qed.

(** *** The count never goes down *)

Lemma encodeLength_nonneg text n : encodeLength enc_encode text = Returns n -> 0 <= n.
Proof.
  unfold encodeLength. destruct (enc_encode text); cbn [bind]; [|discriminate].
  intros [= <-]. lia.
Qed.

Lemma encodeArg_nonneg arg n : encodeArg enc_encode arg = Returns n -> 0 <= n.
Proof. destruct arg; simpl; [apply encodeLength_nonneg | discriminate]. Qed.

Lemma forOf_grows {A : Type} (body : Z -> A -> outcome Z) (l : list A) :
  (forall t x n, body t x = Returns n -> t <= n) ->
  forall t n, forOf body t l = Returns n -> t <= n.
Proof.
  intros Hbody. induction l as [|x l IH]; intros t n; simpl.
  - intros [= <-]. lia.
  - destruct (body t x) as [t'|] eqn:E; cbn [bind]; [|discriminate].
    intros H. apply IH in H. apply Hbody in E. lia.
Qed.

Lemma add_encoded_grows (c : outcome Z) t n :
  (forall k, c = Returns k -> 0 <= k) ->
  bind c (fun k => Returns (t + k)) = Returns n -> t <= n.
Proof.
  intros Hc. destruct c as [k|]; cbn [bind]; [|discriminate].
  intros [= <-]. specialize (Hc k eq_refl). lia.
Qed.

Lemma countBlock_grows t b n : countBlock enc_encode t b = Returns n -> t <= n.
Proof.
  unfold countBlock.
  destruct (str_eq (type b) "text" && truthy_ostr (text b)).
  { apply add_encoded_grows. intros k. apply encodeArg_nonneg. }
  destruct (str_eq (type b) "tool_use" && truthy_opt (input b)).
  { apply add_encoded_grows. intros k. apply encodeArg_nonneg. }
  destruct (str_eq (type b) "tool_result").
  { apply add_encoded_grows. intros k. apply encodeArg_nonneg. }
  intros [= <-]. lia.
Qed.

Lemma countMessage_grows t m n : countMessage enc_encode t m = Returns n -> t <= n.
Proof.
  unfold countMessage. destruct (m_content m) as [s|bs|].
  - apply add_encoded_grows. intros k. apply encodeLength_nonneg.
  - apply forOf_grows. apply countBlock_grows.
  - intros [= <-]. lia.
Qed.

Lemma countSystem_grows t system n : countSystem enc_encode t system = Returns n -> t <= n.
Proof.
  unfold countSystem. destruct system as [[s|items]|].
  - apply add_encoded_grows. intros k. apply encodeLength_nonneg.
  - apply forOf_grows. intros t' item k. unfold countSystemItem.
    destruct (text item) as [s|]; [|intros [= <-]; lia].
    destruct (str_eq (type item) "text"); [|intros [= <-]; lia].
    apply add_encoded_grows. intros k'. apply encodeLength_nonneg.
  - intros [= <-]. lia.
Qed.

Lemma countIfTruthy_grows t o n : countIfTruthy enc_encode t o = Returns n -> t <= n.
Proof.
  unfold countIfTruthy. destruct (truthy_ostr o); [|intros [= <-]; lia].
  apply add_encoded_grows. intros k. apply encodeArg_nonneg.
Qed.

Lemma countTool_grows t tool n : countTool enc_encode t tool = Returns n -> t <= n.
Proof.
  unfold countTool.
  destruct (countIfTruthy enc_encode t (name tool)) as [a|] eqn:Ea; cbn [bind];
    [|discriminate].
  destruct (countIfTruthy enc_encode a (description tool)) as [b|] eqn:Eb; cbn [bind];
    [|discriminate].
  apply countIfTruthy_grows in Ea, Eb.
  destruct (truthy_opt (input_schema tool)); [|intros [= <-]; lia].
  intros H. apply add_encoded_grows in H; [lia|]. intros k. apply encodeArg_nonneg.
Qed.

(** When the structural counter returns, the count is not negative, and
    it is at least the count of the messages alone. *)
Theorem structural_count_nonneg (messages : list Message) (system : option SystemPrompt)
  (tools : option (list Tool)) (n : Z) :
  calculateTokenCount enc_encode messages system tools = Returns n ->
  0 <= n
  /\ exists a, calculateTokenCount enc_encode messages None None = Returns a
               /\ 0 <= a <= n.
Proof.
  unfold calculateTokenCount. cbn [bind countSystem countTools].
  destruct (forOf (countMessage enc_encode) 0 messages) as [a|] eqn:Ea; cbn [bind];
    [|discriminate].
  destruct (countSystem enc_encode a system) as [b|] eqn:Eb; cbn [bind]; [|discriminate].
  intros Hc.
  apply (forOf_grows (countMessage enc_encode) messages countMessage_grows) in Ea.
  apply countSystem_grows in Eb.
  assert (b <= n).
  { unfold countTools in Hc. destruct tools as [ts|]; [|injection Hc; lia].
    apply (forOf_grows (countTool enc_encode) ts countTool_grows) in Hc. exact Hc. }
  split; [lia|]. exists a. split; [reflexivity | lia].
Qed.

End TokenCounterMore.

Section TokenCounterMoreRuns.
Import Js Tokens.

Lemma fallback_is_quarter_length_witness :
  countTokens guardedEncoder "<|endoftext|>" <= strLength "<|endoftext|>".
Proof.
  apply (fallback_is_quarter_length guardedEncoder "<|endoftext|>"). reflexivity.
Defined.

Lemma structural_count_nonneg_witness : 0 <= 112.
Proof.
  apply (structural_count_nonneg charEncoder demoMessages demoSystem demoTools 112).
  vm_compute. reflexivity.
Defined.

(** Blocks of a type other than [text], [tool_use] and [tool_result]
    (images, for one) and contents that are neither a string nor an array
    are not counted and not even encoded: the count of such messages is 0
    with every encoder, one that refuses every text included. *)
Theorem other_blocks_are_not_counted (enc_encode : string -> outcome (list N))
  (messages : list Message) :
  Forall (fun m =>
    match m_content m with
    | MStr _ => False
    | MBlocks bs =>
        Forall (fun b => type b <> "text" /\ type b <> "tool_use"
                         /\ type b <> "tool_result") bs
    | MOther => True
    end) messages ->
  calculateTokenCount enc_encode messages None None = Returns 0.
Proof.
  intros Hm. unfold calculateTokenCount. cbn [countSystem countTools].
  assert (Hloop : forall t, forOf (countMessage enc_encode) t messages = Returns t).
  { induction Hm as [|m ms Hmsg _ IH]; intros t; [reflexivity|].
    cbn [forOf]. assert (Hone : countMessage enc_encode t m = Returns t).
    { unfold countMessage. destruct (m_content m) as [s|bs|]; [contradiction| |reflexivity].
      revert t. induction Hmsg as [|b bs (H1 & H2 & H3) _ IHb]; intros t; [reflexivity|].
      cbn [forOf]. unfold countBlock at 1.
      apply str_eq_false in H1, H2, H3. rewrite H1, H2, H3. simpl. apply IHb. }
    rewrite Hone. cbn [bind]. apply IH. }
  rewrite Hloop. reflexivity.
Qed.

Lemma other_blocks_are_not_counted_witness :
  calculateTokenCount refusingEncoder imageOnlyMessages None None = Returns 0.
Proof.
  apply other_blocks_are_not_counted.
  repeat constructor; simpl; discriminate.
Defined.

End TokenCounterMoreRuns.

(** ** Further properties of the request preprocessing *)

Section PreprocessingMore.
Import Js Routes.

Lemma normalizeBlock_cases (b : Block) :
  normalizeBlock b = match carriedToolUseId b with
                     | Some v => <["id" := v]> b
                     | None => b
                     end.
Proof.
  unfold normalizeBlock, carriedToolUseId.
  destruct (b !! "type") as [ty|]; [destruct ty as [| | |t| |]|];
    destruct (b !! "tool_use_id") as [v|]; simpl; try reflexivity.
  - destruct (str_eq t "tool_result"); simpl; [|reflexivity].
    destruct (truthy v); reflexivity.
  - destruct (str_eq t "tool_result"); reflexivity.
Qed.

Lemma carriedToolUseId_insert_id (b : Block) (v : value) :
  carriedToolUseId (<["id" := v]> b) = carriedToolUseId b.
Proof.
  unfold carriedToolUseId. rewrite !lookup_insert_ne by discriminate. reflexivity.
Qed.

Lemma normalizeBlock_idempotent (b : Block) :
  normalizeBlock (normalizeBlock b) = normalizeBlock b.
Proof.
  rewrite (normalizeBlock_cases b). destruct (carriedToolUseId b) as [v|] eqn:Ec.
  - rewrite normalizeBlock_cases, carriedToolUseId_insert_id, Ec.
    apply insert_insert_eq.
  - rewrite normalizeBlock_cases, Ec. reflexivity.
Qed.

Lemma normalizeMessage_idempotent (m : Message) :
  normalizeMessage (normalizeMessage m) = normalizeMessage m.
Proof.
  unfold normalizeMessage. destruct (content m) as [s|bs|] eqn:Ec; rewrite ?Ec; try reflexivity.
  simpl. rewrite List.map_map. f_equal. f_equal.
  apply List.map_ext. intros b. apply normalizeBlock_idempotent.
Qed.

(** Copying the tool-use ids a second time changes nothing. *)
Theorem normalizeToolIds_idempotent (req : AnthropicRequest) :
  normalizeToolIds (normalizeToolIds req) = normalizeToolIds req.
Proof.
  unfold normalizeToolIds. simpl. f_equal. rewrite List.map_map.
  apply List.map_ext. intros m. apply normalizeMessage_idempotent.
Qed.

Lemma fixTrailingAssistant_cases (req : AnthropicRequest) :
  fixTrailingAssistant req
  = if bool_decide (lastRole req = Some "assistant")
    then {| messages := messages req ++ [continueMessage]; r_fields := r_fields req |}
    else req.
Proof.
  unfold fixTrailingAssistant. rewrite at_index_last. unfold lastRole.
  destruct (last (messages req)) as [m|]; simpl; [|reflexivity].
  destruct (str_eq (role m) "assistant") eqn:Er.
  - apply str_eq_true in Er. rewrite Er. reflexivity.
  - apply str_eq_false in Er. rewrite bool_decide_eq_false_2; [reflexivity|congruence].
Qed.

Lemma fixTrailingAssistant_lastRole (req : AnthropicRequest) :
  lastRole (fixTrailingAssistant req) <> Some "assistant".
Proof.
  rewrite fixTrailingAssistant_cases. case_bool_decide as H; [|exact H].
  rewrite lastRole_snoc. discriminate.
Qed.

(** Fixing the trailing assistant message a second time changes nothing,
    and the step adds at most one message, at the end: the user message
    [Continue.]. *)
Theorem fixTrailingAssistant_idempotent (req : AnthropicRequest) :
  fixTrailingAssistant (fixTrailingAssistant req) = fixTrailingAssistant req
  /\ (messages (fixTrailingAssistant req) = messages req
      \/ messages (fixTrailingAssistant req)
         = (messages req
            ++ [ {| role := "user"; content := CStr "Continue."; m_fields := ∅ |} ])%list)
  /\ r_fields (fixTrailingAssistant req) = r_fields req.
Proof.
  split.
  - rewrite (fixTrailingAssistant_cases (fixTrailingAssistant req)).
    rewrite bool_decide_eq_false_2; [reflexivity|apply fixTrailingAssistant_lastRole].
  - rewrite fixTrailingAssistant_cases. case_bool_decide; simpl; auto.
Qed.

Lemma normalizeMessage_role (m : Message) : role (normalizeMessage m) = role m.
Proof. unfold normalizeMessage. destruct (content m); reflexivity. Qed.

Lemma last_map {A B : Type} (f : A -> B) (l : list A) :
  last (List.map f l) = option_map f (last l).
Proof.
  induction l as [|x l IH]; [reflexivity|].
  destruct l as [|y l]; [reflexivity|]. exact IH.
Qed.

Lemma normalizeToolIds_lastRole (req : AnthropicRequest) :
  lastRole (normalizeToolIds req) = lastRole req.
Proof.
  unfold lastRole, normalizeToolIds. simpl. rewrite last_map.
  destruct (last (messages req)) as [m|]; simpl; [|reflexivity].
  rewrite normalizeMessage_role. reflexivity.
Qed.

(** The two preprocessing steps commute, and after both the request does
    not end with an assistant message. *)
Theorem preprocessing_steps_commute (req : AnthropicRequest) :
  fixTrailingAssistant (normalizeToolIds req) = normalizeToolIds (fixTrailingAssistant req)
  /\ lastRole (fixTrailingAssistant (normalizeToolIds req)) <> Some "assistant".
Proof.
  split; [|apply fixTrailingAssistant_lastRole].
  rewrite !fixTrailingAssistant_cases, normalizeToolIds_lastRole.
  case_bool_decide; [|reflexivity].
  unfold normalizeToolIds. simpl. rewrite List.map_app. reflexivity.
Qed.

End PreprocessingMore.

(** ** Backend authentication *)

Section Authentication.
Import Js Auth.

Lemma prefix_app (sub post : string) : String.prefix sub (sub ++ post) = true.
Proof.
  induction sub as [|c sub IH]; simpl; [destruct post; reflexivity|].
  destruct (ascii_dec c c) as [_|Hne]; [exact IH | contradiction].
Qed.

Lemma includes_prefix (sub s : string) : String.prefix sub s = true -> includes sub s = true.
Proof. intros H. destruct s; cbn [includes]; rewrite H; reflexivity. Qed.

(** [includes] finds a text wherever it stands. *)
Lemma includes_app (sub pre post : string) : includes sub (pre ++ sub ++ post) = true.
Proof.
  induction pre as [|c pre IH].
  - change (includes sub (sub ++ post) = true). apply includes_prefix, prefix_app.
  - change (includes sub (String c (pre ++ sub ++ post)) = true).
    cbn [includes]. rewrite IH. apply orb_true_r.
Qed.

(** For a backend whose URL holds [.cluster.local] both functions return
    the configured key ([getAuthHeader] behind [Bearer]), whatever
    authorization the client sent: what they return does not depend on
    the client's header. *)
Theorem cluster_backend_uses_configured_key (backend : BackendConfig) (pre post : string)
  (clientAuth : option string) :
  url backend = pre ++ ".cluster.local" ++ post ->
  getBackendAuth backend clientAuth = apiKey backend
  /\ getAuthHeader backend clientAuth = Returns ("Bearer " ++ interpolate (apiKey backend)).
Proof.
  intros Hurl. unfold getBackendAuth, getAuthHeader, isInternalService, isInternalBackend.
  rewrite Hurl, includes_app. split; reflexivity.
Qed.

Lemma cluster_backend_uses_configured_key_witness :
  getBackendAuth clusterBackend (Some "Bearer client-token") = Some "key"
  /\ getAuthHeader clusterBackend (Some "Bearer client-token") = Returns "Bearer key".
Proof.
  exact (cluster_backend_uses_configured_key clusterBackend "http://vllm.vllm.svc"
           ":8000" (Some "Bearer client-token") eq_refl).
Defined.

(** [getAuthHeader] throws exactly for a backend that is not internal when
    the client sent no header (or an empty one); for such a backend it
    otherwise returns the client's header as it is; a plain [http://] URL
    counts as internal. *)
Theorem auth_header_throws_iff (backend : BackendConfig) (clientAuthHeader : option string) :
  (getAuthHeader backend clientAuthHeader = Throws <->
   isInternalBackend (url backend) = false /\ truthy_ostr clientAuthHeader = false)
  /\ (forall h, isInternalBackend (url backend) = false ->
      getAuthHeader backend clientAuthHeader = Returns h ->
      clientAuthHeader = Some h /\ h <> EmptyString)
  /\ (forall rest, url backend = "http://" ++ rest ->
      getAuthHeader backend clientAuthHeader
      = Returns ("Bearer " ++ interpolate (apiKey backend))).
Proof.
  unfold getAuthHeader. split; [|split].
  - destruct (isInternalBackend (url backend)).
    + split; [discriminate | intros [H _]; discriminate].
    + destruct clientAuthHeader as [h|]; simpl; [|tauto].
      destruct (truthy_str h); split; try discriminate; try tauto.
      intros [_ H]. discriminate.
  - intros h Hext. rewrite Hext. destruct clientAuthHeader as [h'|]; [|discriminate].
    destruct (truthy_str h') eqn:E; [|discriminate].
    intros [= ->]. split; [reflexivity|]. apply truthy_str_nonempty, E.
  - intros rest Hurl. unfold isInternalBackend, startsWith.
    rewrite Hurl, prefix_app, orb_true_r. reflexivity.
Qed.

Lemma auth_header_throws_iff_witness :
  getAuthHeader externalBackend None = Throws.
Proof.
  apply (proj1 (auth_header_throws_iff externalBackend None)). split; reflexivity.
Defined.

(** [getBackendAuth] gives something else than the configured key only
    for a backend outside the cluster that has no key (or an empty one),
    and then it gives what the client sent. *)
Theorem client_auth_is_the_fallback (backend : BackendConfig) (clientAuth : option string) :
  getBackendAuth backend clientAuth <> apiKey backend ->
  isInternalService (url backend) = false
  /\ truthy_ostr (apiKey backend) = false
  /\ getBackendAuth backend clientAuth = clientAuth.
Proof.
  unfold getBackendAuth, ostr_or.
  destruct (isInternalService (url backend)); [congruence|].
  destruct (truthy_ostr (apiKey backend)); [congruence|]. auto.
Qed.

Lemma client_auth_is_the_fallback_witness :
  getBackendAuth externalBackend (Some "Bearer client-token") = Some "Bearer client-token".
Proof.
  apply (client_auth_is_the_fallback externalBackend (Some "Bearer client-token")).
  discriminate.
Defined.

End Authentication.

(** ** [sanitizeToolChoice] *)

Section ToolChoice.
Import Js Images.

(** After [sanitizeToolChoice] a request that still has a (truthy)
    [tool_choice] has at least one tool; tools and the other fields are
    as they were, [tool_choice] is as it was or gone; a request with a
    tool is not touched; and a second pass changes nothing. *)
Theorem tool_choice_needs_tools (body : OpenAIRequest) :
  let out := sanitizeToolChoice body in
  (truthy_opt (tool_choice out) = true -> exists t ts, tools out = Some (t :: ts))
  /\ tools out = tools body
  /\ fields out = fields body
  /\ (tool_choice out = tool_choice body \/ tool_choice out = None)
  /\ (noTools body = false -> out = body)
  /\ sanitizeToolChoice out = out.
Proof.
  simpl. unfold sanitizeToolChoice.
  destruct (truthy_opt (tool_choice body)) eqn:Et; simpl.
  - unfold noTools. destruct (tools body) as [[|t ts]|] eqn:El; simpl; rewrite ?Et, ?El; simpl.
    + repeat split; auto; discriminate.
    + repeat split; eauto.
    + repeat split; auto; discriminate.
  - rewrite Et. simpl. repeat split; auto. discriminate.
Qed.

Lemma tool_choice_needs_tools_witness :
  sanitizeToolChoice choiceWithoutTools
  = {| tool_choice := None; tools := Some []; fields := {[ "model" := VStr "m" ]} |}
  /\ sanitizeToolChoice (sanitizeToolChoice choiceWithoutTools)
     = sanitizeToolChoice choiceWithoutTools.
Proof.
  split; [reflexivity|].
  exact (proj2 (proj2 (proj2 (proj2 (proj2 (tool_choice_needs_tools choiceWithoutTools)))))).
Defined.

End ToolChoice.

(** ** The image agent *)

Section ImageAgentProperties.
Import Js Translator ImageAgent.

(** *** The three tests *)

Lemma hasImagesLoop_app (l1 l2 : list AnthropicMessage) :
  hasImagesLoop (l1 ++ l2) = hasImagesLoop l1 || hasImagesLoop l2.
Proof.
  induction l1 as [|m l1 IH]; simpl; [reflexivity|].
  destruct (userImages m); [reflexivity | exact IH].
Qed.

Lemma historyLoop_snoc (len : Z) (x : AnthropicMessage) (init : list AnthropicMessage) :
  forall i, i + Z.of_nat (length init) + 1 = len ->
  historyLoop i len (init ++ [x]) = hasImagesLoop init.
Proof.
  induction init as [|m init IH]; intros i Hi; simpl in *.
  - destruct (Z.ltb_spec i (len - 1)); [lia | reflexivity].
  - destruct (Z.ltb_spec i (len - 1)); [|lia].
    destruct (userImages m); [reflexivity|]. apply IH. lia.
Qed.

Lemma historyHasImages_snoc (request : AnthropicRequest) init x :
  messages request = (init ++ [x])%list -> historyHasImages request = hasImagesLoop init.
Proof.
  intros Hm. unfold historyHasImages, messageCount. rewrite Hm.
  apply historyLoop_snoc. rewrite length_app. simpl. lia.
Qed.

Lemma lastMessageHasImages_last (request : AnthropicRequest) :
  lastMessageHasImages request
  = match last (messages request) with
    | Some m => userImages m
    | None => false
    end.
Proof.
  unfold lastMessageHasImages, messageCount. rewrite at_index_last.
  destruct (last (messages request)) as [m|]; reflexivity.
Qed.

Lemma snoc_cases {A : Type} (l : list A) :
  l = [] \/ exists init x, l = (init ++ [x])%list.
Proof. induction l using rev_ind; [left; reflexivity | right; eauto]. Qed.

Lemma hasImages_split (request : AnthropicRequest) :
  hasImages request = historyHasImages request || lastMessageHasImages request.
Proof.
  rewrite lastMessageHasImages_last. unfold hasImages.
  destruct (snoc_cases (messages request)) as [Em|(init & x & Em)].
  - unfold historyHasImages. rewrite Em. reflexivity.
  - rewrite (historyHasImages_snoc request _ _ Em), Em.
    rewrite hasImagesLoop_app, last_snoc. simpl.
    destruct (userImages x); reflexivity.
Qed.

(** A request has an image exactly when its history or its last message
    has one: the two tests of the router cover [hasImages]. *)
Theorem images_are_in_history_or_last (request : AnthropicRequest) :
  hasImages request = true <->
  historyHasImages request = true \/ lastMessageHasImages request = true.
Proof. rewrite hasImages_split. apply orb_true_iff. Qed.

(** *** removeImagesFromHistory *)

Lemma placeholder_not_image n : isImageBlock (placeholder n) = false.
Proof. reflexivity. Qed.

Lemma replaceImages_no_image bs : forall c,
  existsb isImageBlock (snd (replaceImages c bs)) = false.
Proof.
  induction bs as [|b bs IH]; intros c; simpl; [reflexivity|].
  destruct (isImageBlock b) eqn:Eb.
  - specialize (IH (c + 1)). destruct (replaceImages (c + 1) bs) as [n out]. simpl in *.
    exact IH.
  - specialize (IH c). destruct (replaceImages c bs) as [n out]. simpl in *.
    rewrite Eb. exact IH.
Qed.

Lemma replaceImages_clean bs : forall c,
  existsb isImageBlock bs = false -> replaceImages c bs = (c, bs).
Proof.
  induction bs as [|b bs IH]; intros c; simpl; [reflexivity|].
  intros H. apply orb_false_iff in H as [Hb Hbs]. rewrite Hb, (IH c Hbs). reflexivity.
Qed.

Lemma settled_finalContent r bs :
  existsb isImageBlock bs = false ->
  settled {| role := r; content := finalContent bs |} = true.
Proof.
  intros Hbs. unfold settled, finalContent. simpl.
  destruct (negb (str_eq r "user")); [reflexivity|].
  destruct (forallb (fun b => str_eq (type b) "text") bs) eqn:Et; [reflexivity|].
  rewrite Hbs, Et. reflexivity.
Qed.

Lemma settled_no_images m : settled m = true -> userImages m = false.
Proof.
  unfold settled, userImages. destruct (negb (str_eq (role m) "user")); [reflexivity|].
  destruct (content m) as [s|bs]; [reflexivity|].
  intros H. apply andb_true_iff in H as [H _]. apply negb_true_iff in H. exact H.
Qed.

Lemma settled_list_no_images l : Forall (fun m => settled m = true) l -> hasImagesLoop l = false.
Proof.
  induction 1 as [|m l Hm _ IH]; simpl; [reflexivity|].
  rewrite (settled_no_images m Hm). exact IH.
Qed.

Lemma removeLoop_snoc (len : Z) (x : AnthropicMessage) (init : list AnthropicMessage) :
  forall i c, i + Z.of_nat (length init) + 1 = len ->
  exists init', removeLoop i len c (init ++ [x]) = (init' ++ [x])%list
                /\ Forall2 cleaned init init'.
Proof.
  induction init as [|m init IH]; intros i c Hi; simpl in *.
  - exists []. destruct (Z.eqb_spec i (len - 1)); [|lia]. split; [reflexivity|constructor].
  - destruct (Z.eqb_spec i (len - 1)); [lia|].
    destruct (negb (str_eq (role m) "user")) eqn:Er.
    { destruct (IH (i + 1) c ltac:(lia)) as (init' & -> & HF).
      exists (m :: init'). split; [reflexivity|]. constructor; [|exact HF].
      unfold cleaned, settled. rewrite Er. auto. }
    destruct (content m) as [s|bs] eqn:Ec.
    { destruct (IH (i + 1) c ltac:(lia)) as (init' & -> & HF).
      exists (m :: init'). split; [reflexivity|]. constructor; [|exact HF].
      unfold cleaned, settled. rewrite Er, Ec. auto. }
    pose proof (replaceImages_no_image bs c) as Hno.
    destruct (replaceImages c bs) as [k newContent] eqn:Erep. simpl in Hno.
    destruct (IH (i + 1) k ltac:(lia)) as (init' & -> & HF).
    exists ({| role := role m; content := finalContent newContent |} :: init').
    split; [reflexivity|]. constructor; [|exact HF].
    split; [reflexivity|]. split; [apply settled_finalContent, Hno|].
    unfold settled. rewrite Er, Ec. intros Hs.
    apply andb_true_iff in Hs as [Hi' Ht]. apply negb_true_iff in Hi', Ht.
    rewrite (replaceImages_clean bs c Hi') in Erep. injection Erep as <- <-.
    unfold finalContent. rewrite Ht. destruct m; simpl in *. congruence.
Qed.

Lemma withMessages_same (request : AnthropicRequest) :
  withMessages request (messages request) = request.
Proof. destruct request; reflexivity. Qed.

Lemma removeImagesFromHistory_messages (request : AnthropicRequest) :
  (messages request = [] /\ removeImagesFromHistory request = request)
  \/ exists init init' x,
       messages request = (init ++ [x])%list
       /\ messages (removeImagesFromHistory request) = (init' ++ [x])%list
       /\ Forall2 cleaned init init'.
Proof.
  unfold removeImagesFromHistory.
  destruct (snoc_cases (messages request)) as [Em|(init & x & Em)].
  - left. split; [exact Em|]. rewrite Em at 1. simpl. rewrite <- Em.
    apply withMessages_same.
  - right. unfold messageCount. rewrite Em.
    destruct (removeLoop_snoc (Z.of_nat (length (init ++ [x]))) x init 0 0) as (init' & H & HF).
    { rewrite length_app. simpl. lia. }
    exists init, init', x. simpl. auto.
Qed.

Lemma cleaned_settled init init' :
  Forall2 cleaned init init' -> Forall (fun m => settled m = true) init'.
Proof. induction 1 as [|m m' l l' (_ & Hs & _) _ IH]; constructor; auto. Qed.

Lemma cleaned_roles init init' :
  Forall2 cleaned init init' -> List.map role init' = List.map role init.
Proof. induction 1 as [|m m' l l' (Hr & _) _ IH]; simpl; congruence. Qed.

Lemma cleaned_fixpoint init init' :
  Forall2 cleaned init init' -> Forall (fun m => settled m = true) init -> init' = init.
Proof.
  induction 1 as [|m m' l l' (_ & _ & Hu) _ IH]; intros Hs; [reflexivity|].
  inversion Hs; subst. f_equal; auto.
Qed.

Lemma removeImagesFromHistory_history (request : AnthropicRequest) :
  historyHasImages (removeImagesFromHistory request) = false.
Proof.
  destruct (removeImagesFromHistory_messages request) as [[Em ->]|(init & init' & x & _ & Hm & HF)].
  - unfold historyHasImages. rewrite Em. reflexivity.
  - rewrite (historyHasImages_snoc _ _ _ Hm).
    apply settled_list_no_images, (cleaned_settled _ _ HF).
Qed.

Lemma removeImagesFromHistory_last (request : AnthropicRequest) :
  last (messages (removeImagesFromHistory request)) = last (messages request).
Proof.
  destruct (removeImagesFromHistory_messages request) as [[Em ->]|(init & init' & x & Em & Hm & _)].
  - reflexivity.
  - rewrite Em, Hm, !last_snoc. reflexivity.
Qed.

(** After [removeImagesFromHistory] the history holds no image; the last
    message is the one it was, so that images are left in it; the roles
    are the ones they were, in order; and the other fields of the request
    are kept. *)
Theorem history_has_no_images_afterwards (request : AnthropicRequest) :
  let out := removeImagesFromHistory request in
  historyHasImages out = false
  /\ last (messages out) = last (messages request)
  /\ lastMessageHasImages out = lastMessageHasImages request
  /\ List.map role (messages out) = List.map role (messages request)
  /\ withMessages out (messages request) = request.
Proof.
  cbv zeta. split; [apply removeImagesFromHistory_history|].
  split; [apply removeImagesFromHistory_last|]. split.
  - rewrite !lastMessageHasImages_last, removeImagesFromHistory_last. reflexivity.
  - split; [|destruct request; reflexivity].
    destruct (removeImagesFromHistory_messages request)
      as [[Em ->]|(init & init' & x & Em & Hm & HF)]; [reflexivity|].
    rewrite Em, Hm, !List.map_app, (cleaned_roles _ _ HF). reflexivity.
Qed.

(** Removing the images of the history a second time changes nothing. *)
Theorem removeImagesFromHistory_idempotent (request : AnthropicRequest) :
  removeImagesFromHistory (removeImagesFromHistory request) = removeImagesFromHistory request.
Proof.
  destruct (removeImagesFromHistory_messages request)
    as [[Em ->]|(init & init' & x & Em & Hm & HF)].
  - destruct (removeImagesFromHistory_messages request) as [[_ H]|(i0 & i1 & x0 & E0 & _)];
      [exact H|]. rewrite Em in E0. destruct i0; discriminate.
  - destruct (removeImagesFromHistory_messages (removeImagesFromHistory request))
      as [[E2 _]|(j & j' & y & E2 & H2 & HF2)].
    + rewrite Hm in E2. destruct init'; discriminate.
    + rewrite Hm in E2. apply app_inj_tail in E2 as [<- <-].
      apply cleaned_fixpoint in HF2; [|apply (cleaned_settled _ _ HF)]. subst j'.
      assert (Hw : forall r, removeImagesFromHistory r
                             = withMessages r (messages (removeImagesFromHistory r))).
      { intros r. reflexivity. }
      rewrite (Hw (removeImagesFromHistory request)), H2, <- Hm.
      destruct request; reflexivity.
Qed.

(** *** processImagesInLastMessage and the router *)

Section Vision.

Variable analyzeImage : Z -> AnthropicContentBlock -> string -> string.

Lemma analyzeLoop_no_image bs : forall n task acc,
  existsb isImageBlock (analyzeLoop analyzeImage n task acc bs) = existsb isImageBlock acc.
Proof.
  induction bs as [|b bs IH]; intros n task acc; simpl; [reflexivity|].
  destruct (isImageBlock b) eqn:Eb; rewrite IH, existsb_app; simpl.
  - rewrite orb_false_r. reflexivity.
  - rewrite Eb, !orb_false_r. reflexivity.
Qed.

Lemma userImages_finalContent r bs :
  existsb isImageBlock bs = false ->
  userImages {| role := r; content := finalContent bs |} = false.
Proof. intros H. apply settled_no_images, settled_finalContent, H. Qed.

Lemma processImagesInLastMessage_messages (request : AnthropicRequest) :
  (processImagesInLastMessage analyzeImage request = request
   /\ lastMessageHasImages request = false)
  \/ exists init x x',
       messages request = (init ++ [x])%list
       /\ messages (processImagesInLastMessage analyzeImage request) = (init ++ [x'])%list
       /\ role x' = role x /\ userImages x' = false.
Proof.
  rewrite lastMessageHasImages_last.
  destruct (snoc_cases (messages request)) as [Em|(init & x & Em)].
  - left. unfold processImagesInLastMessage, messageCount. cbv zeta.
    rewrite at_index_last, Em. auto.
  - assert (Hp : processImagesInLastMessage analyzeImage request
                 = if negb (str_eq (role x) "user") then request
                   else match content x with
                        | Str _ => request
                        | Blocks bs =>
                            withMessages request
                              (init ++ [ {| role := role x;
                                            content :=
                                              finalContent
                                                (analyzeLoop analyzeImage 0
                                                   (textContextOf bs) [] bs) |} ])
                        end).
    { unfold processImagesInLastMessage, messageCount. cbv zeta.
      rewrite at_index_last, Em, last_snoc.
      destruct (negb (str_eq (role x) "user")); [reflexivity|].
      destruct (content x) as [s|bs]; [reflexivity|]. f_equal.
      replace (Z.to_nat (Z.of_nat (length (init ++ [x])) - 1)) with (length init + 0)%nat
        by (rewrite length_app; simpl; lia).
      rewrite insert_app_r. reflexivity. }
    rewrite Hp, Em, last_snoc. unfold userImages.
    destruct (negb (str_eq (role x) "user")); [left; auto|].
    destruct (content x) as [s|bs]; [left; auto|].
    right. exists init, x. eexists. split; [reflexivity|]. split; [reflexivity|].
    split; [reflexivity|].
    apply userImages_finalContent. rewrite analyzeLoop_no_image. reflexivity.
Qed.

Lemma processImagesInLastMessage_last (request : AnthropicRequest) :
  lastMessageHasImages (processImagesInLastMessage analyzeImage request) = false.
Proof.
  destruct (processImagesInLastMessage_messages request)
    as [[-> H]|(init & x & x' & _ & Hm & _ & Hx)]; [exact H|].
  rewrite lastMessageHasImages_last, Hm, last_snoc. exact Hx.
Qed.

(** After [processImagesInLastMessage] the last message holds no image,
    whatever the vision backend answers; the messages before it, their
    number and the roles are the ones they were. *)
Theorem last_message_has_no_images_afterwards (request : AnthropicRequest) :
  let out := processImagesInLastMessage analyzeImage request in
  lastMessageHasImages out = false
  /\ removelast (messages out) = removelast (messages request)
  /\ historyHasImages out = historyHasImages request
  /\ List.map role (messages out) = List.map role (messages request).
Proof.
  cbv zeta. split; [apply processImagesInLastMessage_last|].
  destruct (processImagesInLastMessage_messages request)
    as [[-> _]|(init & x & x' & Em & Hm & Hr & _)]; [auto|].
  rewrite (historyHasImages_snoc _ _ _ Hm), (historyHasImages_snoc _ _ _ Em).
  rewrite Em, Hm, !removelast_last, !List.map_app. simpl. rewrite Hr. auto.
Qed.

(** The request the router hands on, by the tests of the image agent
    (which look at the image blocks of user messages): [historyHasImages]
    is false of it; with a vision backend [hasImages] is false of it;
    without one [lastMessageHasImages] is what it was; and a request of
    which [hasImages] is false is handed on as it is. *)
Theorem router_strips_images (visionBackend : bool) (request : AnthropicRequest) :
  let out := processedRequest analyzeImage visionBackend request in
  historyHasImages out = false
  /\ (visionBackend = true -> hasImages out = false)
  /\ (visionBackend = false -> lastMessageHasImages out = lastMessageHasImages request)
  /\ (hasImages request = false -> out = request).
Proof.
  cbv zeta. unfold processedRequest.
  destruct (lastMessageHasImages request) eqn:El; simpl.
  - destruct visionBackend; simpl.
    + split; [apply removeImagesFromHistory_history|]. split; [|split].
      * intros _. rewrite hasImages_split, removeImagesFromHistory_history. simpl.
        rewrite lastMessageHasImages_last, removeImagesFromHistory_last,
          <- lastMessageHasImages_last.
        apply processImagesInLastMessage_last.
      * discriminate.
      * rewrite hasImages_split, El, orb_true_r. discriminate.
    + destruct (historyHasImages request) eqn:Eh.
      * split; [apply removeImagesFromHistory_history|]. split; [discriminate|]. split.
        -- intros _. rewrite lastMessageHasImages_last, removeImagesFromHistory_last,
             <- lastMessageHasImages_last. exact El.
        -- rewrite hasImages_split, El, orb_true_r. discriminate.
      * split; [exact Eh|]. split; [discriminate|]. split; [auto|reflexivity].
  - destruct (historyHasImages request) eqn:Eh.
    + split; [apply removeImagesFromHistory_history|]. split; [|split].
      * intros _. rewrite hasImages_split, removeImagesFromHistory_history. simpl.
        rewrite lastMessageHasImages_last, removeImagesFromHistory_last,
          <- lastMessageHasImages_last. exact El.
      * intros _. rewrite lastMessageHasImages_last, removeImagesFromHistory_last,
          <- lastMessageHasImages_last. exact El.
      * rewrite hasImages_split, Eh. discriminate.
    + split; [exact Eh|]. split; [|split; [auto|reflexivity]].
      intros _. rewrite hasImages_split, Eh, El. reflexivity.
Qed.

End Vision.

Lemma router_strips_images_witness :
  hasImages (processedRequest fixedAnswer true twoImagesRequest) = false
  /\ lastMessageHasImages (processedRequest fixedAnswer false twoImagesRequest)
     = lastMessageHasImages twoImagesRequest
  /\ processedRequest fixedAnswer true helloRequest = helloRequest.
Proof.
  pose proof (router_strips_images fixedAnswer true twoImagesRequest) as (_ & H1 & _).
  pose proof (router_strips_images fixedAnswer false twoImagesRequest) as (_ & _ & H2 & _).
  pose proof (router_strips_images fixedAnswer true helloRequest) as (_ & _ & _ & H3).
  split; [apply H1; reflexivity|]. split; [apply H2; reflexivity | apply H3; reflexivity].
Defined.

(** The runs of the test suite. *)
Example remove_images_run :
  List.map content (messages (removeImagesFromHistory twoImagesRequest))
  = [ Str ("Look at this" ++ newline ++ newline ++ "[Image 1 - previously analyzed]");
      Str "I saw a green image";
      Blocks [textBlock "What about this one?"; pngBlock "new"] ].
Proof. vm_compute. reflexivity. Qed.

Example process_images_run :
  List.map content (messages (processImagesInLastMessage fixedAnswer twoImagesRequest))
  = [ Blocks [textBlock "Look at this"; pngBlock "old"];
      Str "I saw a green image";
      Str ("What about this one?" ++ newline ++ newline ++ "[Image 1 analysis]:"
           ++ newline ++ "A green square") ].
Proof. vm_compute. reflexivity. Qed.

End ImageAgentProperties.
